(** * Emcy telemetry SDK: collector and transport

    A shallow embedding of [telemetry.ts] (class [EmcyTelemetry]) and
    [transport.ts] (class [TelemetryTransport]) together with the part of
    [types.ts] they use, and the properties of the batching engine and of
    the delivery loop.

    Conventions of the embedding.
    - JavaScript values are the data fragment [value]: primitives, plain
      objects with data properties, and [Error] instances.  No value is
      callable.  Numbers are integers ([Z]), and their rendering as text
      is exact for the safe integers, below 2^53 in absolute value; an
      instant is its epoch-millisecond count, the source renders it with
      [toISOString].
    - A method is a computation in the monad [M S], which threads the
      mutable state [S] and carries JavaScript's two completions, normal
      and thrown.  [await e] is sequencing; a promise that is not awaited
      is [detach]ed: it runs, and its rejection never reaches the caller.
      A detached task is run to its end where it is started; in the
      program it goes on while its caller continues, so the requests of
      two deliveries under way may alternate.  What is proved of runs
      is stated so as not to depend on that order.
    - The host (clock, UUID source, network, timers, process listeners) is
      the record [Host].  Its inputs are streams read in call order, so no
      assumption is made about what the clock or the endpoint answer.  The
      host keeps the list of [Effect]s the program performed. *)

From Stdlib Require Import ZArith List String Bool Lia DecimalString Permutation.
Import ListNotations.

Local Open Scope string_scope.
Local Open Scope Z_scope.

(** ** JavaScript values *)

#[local] Set Warnings "-register-all".

Inductive value : Type :=
| VUndefined
| VNull
| VBool (b : bool)
| VNumber (n : Z)
| VString (s : string)
| VObject (props : list (string * value))
| VError (msg : string) (props : list (string * value)).

(** ToBoolean *)
Definition truthy (v : value) : bool :=
  match v with
  | VUndefined | VNull => false
  | VBool b => b
  | VNumber n => negb (n =? 0)
  | VString s => negb (s =? "")%string
  | VObject _ | VError _ _ => true
  end.

(** [typeof v === 'object'] *)
Definition typeof_object (v : value) : bool :=
  match v with
  | VNull | VObject _ | VError _ _ => true
  | _ => false
  end.

Fixpoint lookup (k : string) (props : list (string * value)) : option value :=
  match props with
  | [] => None
  | (k', v) :: rest => if (k =? k')%string then Some v else lookup k rest
  end.

(** The own data properties of an object; an [Error] carries [message]. *)
Definition properties (v : value) : list (string * value) :=
  match v with
  | VObject props => props
  | VError msg props => ("message", VString msg) :: props
  | _ => []
  end.

(** [k in v] *)
Definition has_property (k : string) (v : value) : bool :=
  match lookup k (properties v) with Some _ => true | None => false end.

(** [v.k] *)
Definition get (k : string) (v : value) : value :=
  match lookup k (properties v) with Some x => x | None => VUndefined end.

(** [v instanceof Error] *)
Definition instanceof_Error (v : value) : bool :=
  match v with VError _ _ => true | _ => false end.

Definition string_of_Z (n : Z) : string := NilZero.string_of_int (Z.to_int n).

(** The string that [String(v)] returns, for the values on which the
    call returns: [String_call] below tells when it throws instead.  A
    number is written with all its digits, as JavaScript writes the safe
    integers; beyond them JavaScript rounds, and from 1e21 on it writes
    an exponent. *)
Definition String_ (v : value) : string :=
  match v with
  | VUndefined => "undefined"
  | VNull => "null"
  | VBool true => "true"
  | VBool false => "false"
  | VNumber n => string_of_Z n
  | VString s => s
  | VObject _ => "[object Object]"
  | VError msg _ => if (msg =? "")%string then "Error" else "Error: " ++ msg
  end.

(** [new Error(msg)] *)
Definition new_Error (msg : string) : value := VError msg [].

(** An optional property as the object literal sees it: an [undefined]
    value and a missing key are both [None]. *)
Definition optional (v : value) : option value :=
  match v with VUndefined => None | _ => Some v end.

(** ** types.ts *)

Module EmcyConfig.
Record t := mk {
  apiKey : string;
  endpoint : option string;
  mcpServerId : option string;
  batchSize : option Z;
  flushInterval : option Z;
  debug : option bool
}.
End EmcyConfig.

Module Output.
(** [status] is [None] when the key is not written at all. *)
Record t := mk { status : option value; body : value }.
End Output.

Module ErrorInfo.
Record t := mk { message : value; code : option value; stack : option value }.
End ErrorInfo.

Module Metadata.
Record t := mk {
  sessionId : option string;
  agentId : option string;
  userId : option string;
  serverName : option string;
  serverVersion : option string;
  mcpServerId : option string
}.
End Metadata.

Module ToolInvocation.
Record t := mk {
  invocationId : string;
  toolName : string;
  timestamp : Z;
  duration : Z;
  success : bool;
  input : option value;
  output : option Output.t;
  error : option ErrorInfo.t;
  metadata : option Metadata.t
}.
End ToolInvocation.

Module TelemetryBatch.
Record t := mk {
  apiKey : string;
  mcpServerId : option string;
  timestamp : Z;
  invocations : list ToolInvocation.t
}.
End TelemetryBatch.

(** ** Completions and the state monad *)

Inductive Completion (A : Type) : Type :=
| Normal (a : A)
| Thrown (e : value).
Arguments Normal {A} a.
Arguments Thrown {A} e.

(** [String(v)] converts an object through its [toString] and [valueOf].
    A property named [toString] of the object's own hides the inherited
    method and, as no value of the fragment is callable, cannot be
    called; the inherited [valueOf] returns the object itself, which is
    no primitive.  The call then throws a TypeError. *)
Definition String_throws (v : value) : bool :=
  match v with
  | VObject _ | VError _ _ => has_property "toString" v
  | _ => false
  end.

(** That TypeError, with the message V8 gives it. *)
Definition TypeError_to_primitive : value :=
  VError "Cannot convert object to primitive value" [].

(** The call [String(v)]. *)
Definition String_call (v : value) : Completion string :=
  if String_throws v then Thrown TypeError_to_primitive else Normal (String_ v).

Definition M (S A : Type) : Type := S -> Completion A * S.

Definition ret {S A} (a : A) : M S A := fun s => (Normal a, s).

Definition bind {S A B} (m : M S A) (k : A -> M S B) : M S B :=
  fun s =>
    match m s with
    | (Normal a, s') => k a s'
    | (Thrown e, s') => (Thrown e, s')
    end.

Definition throw {S A} (e : value) : M S A := fun s => (Thrown e, s).

(** [try { m } catch (e) { handler e }] *)
Definition try_catch {S A} (m : M S A) (handler : value -> M S A) : M S A :=
  fun s =>
    match m s with
    | (Normal a, s') => (Normal a, s')
    | (Thrown e, s') => handler e s'
    end.

(** A pure call that returns or throws. *)
Definition completes {S A} (c : Completion A) : M S A := fun s => (c, s).

Definition gets {S A} (f : S -> A) : M S A := fun s => (Normal (f s), s).
Definition modify {S} (f : S -> S) : M S unit := fun s => (Normal tt, f s).

Declare Scope js_scope.
Delimit Scope js_scope with js.
Notation "x <- m ;; k" := (bind m (fun x => k))
  (at level 61, m at next level, right associativity) : js_scope.
Notation "m ;; k" := (bind m (fun _ => k))
  (at level 61, right associativity) : js_scope.
Local Open Scope js_scope.

Definition when {S} (c : bool) (m : M S unit) : M S unit :=
  if c then m else ret tt.

(** An early [return r] out of a loop body, or falling through to the
    next iteration with the loop-carried variable. *)
Inductive Flow (R A : Type) : Type :=
| Return (r : R)
| Next (a : A).
Arguments Return {R A} r.
Arguments Next {R A} a.

(** ** The host *)

Module Response.
Record t := mk { status : Z; statusText : string }.
(** The Fetch standard: [ok] is true exactly for statuses 200 to 299. *)
Definition ok (r : t) : bool := (200 <=? status r) && (status r <=? 299).
End Response.

(** What one [fetch] call settles to.  A fetch rejects with an [Error]
    (a TypeError for a network failure, an AbortError), the mocks of the
    test suite also with a primitive: values on which [String] returns. *)
Inductive FetchResult : Type :=
| Responded (r : Response.t)
| Rejected (reason : value).

(** What the program does to the host, in the order it does it.
    [Fetch] is one POST with its bearer token and its body, [Delay] one
    awaited [setTimeout].  [TransportSend] is no action of the host: it
    marks the call [this.transport.send(batch)] of [flush], so that the
    batches handed over can be told from the requests made for them. *)
Inductive Effect : Type :=
| Fetch (url : string) (authorization : string) (body : TelemetryBatch.t)
| Delay (ms : Z)
| ConsoleError (args : list value)
| SetInterval (handle : nat) (ms : Z)
| Unref (handle : nat)
| ClearInterval (handle : nat)
| ProcessOn (event : string)
| TransportSend (batch : TelemetryBatch.t).

(** The inputs of the host are streams: reading number [k] of the clock
    gives [clock k], fetch number [k] settles to [network k].  [intervals]
    holds the handles of the interval timers that are live. *)

Record Host := mkHost {
  clock : nat -> Z;
  clockReads : nat;
  uuids : nat -> string;
  uuidReads : nat;
  network : nat -> FetchResult;
  fetchCalls : nat;
  intervals : list nat;
  nextHandle : nat;
  listeners : list string;
  effects : list Effect
}.

Definition perform (e : Effect) : M Host unit :=
  modify (fun h =>
    mkHost (clock h) (clockReads h) (uuids h) (uuidReads h) (network h)
           (fetchCalls h) (intervals h) (nextHandle h) (listeners h)
           (effects h ++ [e])).

(** [Date.now()], and the instant of [new Date()] *)
Definition Date_now : M Host Z :=
  fun h =>
    (Normal (clock h (clockReads h)),
     mkHost (clock h) (S (clockReads h)) (uuids h) (uuidReads h) (network h)
            (fetchCalls h) (intervals h) (nextHandle h) (listeners h)
            (effects h)).

(** [crypto.randomUUID()] *)
Definition randomUUID : M Host string :=
  fun h =>
    (Normal (uuids h (uuidReads h)),
     mkHost (clock h) (clockReads h) (uuids h) (S (uuidReads h)) (network h)
            (fetchCalls h) (intervals h) (nextHandle h) (listeners h)
            (effects h)).

(** [await fetch(url, { method: 'POST', headers, body })] *)
Definition fetch (url authorization : string) (body : TelemetryBatch.t)
  : M Host Response.t :=
  fun h =>
    let h' :=
      mkHost (clock h) (clockReads h) (uuids h) (uuidReads h) (network h)
             (S (fetchCalls h)) (intervals h) (nextHandle h) (listeners h)
             (effects h ++ [Fetch url authorization body]) in
    match network h (fetchCalls h) with
    | Responded r => (Normal r, h')
    | Rejected reason => (Thrown reason, h')
    end.

Definition console_error (args : list value) : M Host unit :=
  perform (ConsoleError args).

(** [setInterval(callback, ms)]: a fresh live handle. *)
Definition setInterval (ms : Z) : M Host nat :=
  fun h =>
    let id := nextHandle h in
    (Normal id,
     mkHost (clock h) (clockReads h) (uuids h) (uuidReads h) (network h)
            (fetchCalls h) (id :: intervals h) (S id) (listeners h)
            (effects h ++ [SetInterval id ms])).

(** [clearInterval(handle)]: the handle is live no more. *)
Definition clearInterval (id : nat) : M Host unit :=
  fun h =>
    (Normal tt,
     mkHost (clock h) (clockReads h) (uuids h) (uuidReads h) (network h)
            (fetchCalls h) (filter (fun i => negb (Nat.eqb i id)) (intervals h))
            (nextHandle h) (listeners h)
            (effects h ++ [ClearInterval id])).

(** [process.on(event, listener)] *)
Definition process_on (event : string) : M Host unit :=
  fun h =>
    (Normal tt,
     mkHost (clock h) (clockReads h) (uuids h) (uuidReads h) (network h)
            (fetchCalls h) (intervals h) (nextHandle h) (event :: listeners h)
            (effects h ++ [ProcessOn event])).

(** ** transport.ts *)

Definition DEFAULT_ENDPOINT : string := "https://api.emcy.ai/v1/telemetry".
Definition MAX_RETRIES : nat := 3.
Definition RETRY_DELAY_MS : Z := 1000.

Module TelemetryTransport.
Record t := mk { endpoint : string; debug : bool }.
End TelemetryTransport.

(** [constructor(endpoint?: string, debug = false)] *)
Definition new_TelemetryTransport (endpoint : option string) (debug : option bool)
  : TelemetryTransport.t :=
  TelemetryTransport.mk
    (match endpoint with
     | Some e => if (e =? "")%string then DEFAULT_ENDPOINT else e
     | None => DEFAULT_ENDPOINT
     end)
    (match debug with Some d => d | None => false end).

(** [private delay(ms)], awaited *)
Definition delay (ms : Z) : M Host unit := perform (Delay ms).

(** One iteration's [try { ... } catch (error) { ... }]: either [send]
    returns from inside it, or [lastError] is assigned. *)
Definition send_attempt (this : TelemetryTransport.t) (batch : TelemetryBatch.t)
  : M Host (Flow bool value) :=
  try_catch
    (response <- fetch (TelemetryTransport.endpoint this)
                       ("Bearer " ++ TelemetryBatch.apiKey batch) batch ;;
     if Response.ok response then
       when (TelemetryTransport.debug this)
         (console_error
            [VString ("[emcy] Sent "
                      ++ string_of_Z (Z.of_nat (List.length (TelemetryBatch.invocations batch)))
                      ++ " invocations")]) ;;
       ret (Return true)
     else if (400 <=? Response.status response) && (Response.status response <? 500) then
       console_error
         [VString ("[emcy] Client error: "
                   ++ string_of_Z (Response.status response) ++ " "
                   ++ Response.statusText response)] ;;
       ret (Return false)
     else
       ret (Next (new_Error ("HTTP " ++ string_of_Z (Response.status response)
                             ++ ": " ++ Response.statusText response))))
    (fun error =>
       ret (Next (if instanceof_Error error then error
                  else new_Error (String_ error)))).

(** [for (let attempt = 0; attempt < MAX_RETRIES; attempt++)], by recursion
    on the iterations left: [attempt = MAX_RETRIES - remaining]. *)
Fixpoint send_loop (this : TelemetryTransport.t) (batch : TelemetryBatch.t)
    (remaining : nat) (lastError : value) : M Host (Flow bool value) :=
  match remaining with
  | O => ret (Next lastError)
  | S remaining' =>
      let attempt := (MAX_RETRIES - remaining)%nat in
      step <- send_attempt this batch ;;
      match step with
      | Return delivered => ret (Return delivered)
      | Next lastError' =>
          when (Nat.ltb attempt (MAX_RETRIES - 1))
            (delay (RETRY_DELAY_MS * 2 ^ Z.of_nat attempt)) ;;
          send_loop this batch remaining' lastError'
      end
  end.

(** [async send(batch): Promise<boolean>] *)
Definition send (this : TelemetryTransport.t) (batch : TelemetryBatch.t)
  : M Host bool :=
  step <- send_loop this batch MAX_RETRIES VNull ;;
  match step with
  | Return delivered => ret delivered
  | Next lastError =>
      console_error
        [VString ("[emcy] Failed to send telemetry after "
                  ++ string_of_Z (Z.of_nat MAX_RETRIES) ++ " attempts:");
         get "message" lastError] ;;
      ret false
  end.

(** ** telemetry.ts *)

Definition DEFAULT_BATCH_SIZE : Z := 10.
Definition DEFAULT_FLUSH_INTERVAL : Z := 5000.

(** The type of the private field [metadata]. *)
Module ServerMetadata.
Record t := mk {
  serverName : option string;
  serverVersion : option string;
  mcpServerId : option string
}.
(** [{}] *)
Definition empty : t := mk None None None.
End ServerMetadata.

Module EmcyTelemetry.
Record t := mk {
  apiKey : string;
  mcpServerId : option string;
  transport : TelemetryTransport.t;
  queue : list ToolInvocation.t;
  batchSize : Z;
  flushInterval : Z;
  flushTimer : option nat;
  debug : bool;
  metadata : ServerMetadata.t
}.

Definition set_queue (q : list ToolInvocation.t) (o : t) : t :=
  mk (apiKey o) (mcpServerId o) (transport o) q (batchSize o)
     (flushInterval o) (flushTimer o) (debug o) (metadata o).

Definition set_flushTimer (ft : option nat) (o : t) : t :=
  mk (apiKey o) (mcpServerId o) (transport o) (queue o) (batchSize o)
     (flushInterval o) ft (debug o) (metadata o).

Definition set_metadata (m : ServerMetadata.t) (o : t) : t :=
  mk (apiKey o) (mcpServerId o) (transport o) (queue o) (batchSize o)
     (flushInterval o) (flushTimer o) (debug o) m.
End EmcyTelemetry.

(** The second argument of [trace]. *)
Module TraceOptions.
Record t := mk { input : option value; sessionId : option string }.
End TraceOptions.

(** The collector object and the host it runs on. *)
Record World := mkWorld { self : EmcyTelemetry.t; host : Host }.

Definition lift {A} (m : M Host A) : M World A :=
  fun w => let (c, h) := m (host w) in (c, mkWorld (self w) h).

Definition this_ {A} (f : EmcyTelemetry.t -> A) : M World A :=
  gets (fun w => f (self w)).

Definition update (f : EmcyTelemetry.t -> EmcyTelemetry.t) : M World unit :=
  modify (fun w => mkWorld (f (self w)) (host w)).

(** A promise nobody awaits: the callee runs, the caller goes on normally
    whatever the promise settles to.  The callee is run to its end here,
    at the place where it is started: of the ways the event loop can
    order a detached delivery and what its caller does next, this is the
    one in which the delivery is over first. *)
Definition detach {S A} (m : M S A) : M S unit :=
  fun s => let (_, s') := m s in (Normal tt, s').

(** [promise.catch(console.error)], not awaited. *)
Definition catch_console_error (m : M World unit) : M World unit :=
  detach (try_catch m (fun e => lift (console_error [e]))).

(** [a || b] on an optional number, string and boolean. *)
Definition or_number (a : option Z) (b : Z) : Z :=
  match a with
  | Some n => if n =? 0 then b else n
  | None => b
  end.

Definition or_bool (a : option bool) (b : bool) : bool :=
  match a with
  | Some true => true
  | _ => b
  end.

Definition truthy_string (a : option string) : bool :=
  match a with
  | Some s => negb (s =? "")%string
  | None => false
  end.

(** [private extractOutput(result)] *)
Definition extractOutput (result : value) : Output.t :=
  if truthy result && typeof_object result && has_property "status" result then
    Output.mk (Some (get "status" result)) (get "data" result)
  else
    Output.mk None result.

(** [private extractError(error)]; the call [String(error)] of its last
    line can throw. *)
Definition extractError (error : value) : Completion ErrorInfo.t :=
  if instanceof_Error error then
    Normal (ErrorInfo.mk
              (get "message" error)
              (optional (get "code" error))
              (optional (get "stack" error)))
  else
    match String_call error with
    | Normal message => Normal (ErrorInfo.mk (VString message) None None)
    | Thrown e => Thrown e
    end.

(** [async flush()] *)
Definition flush : M World unit :=
  queue <- this_ EmcyTelemetry.queue ;;
  if (List.length queue =? 0)%nat then ret tt
  else
    let invocations := queue in
    update (EmcyTelemetry.set_queue []) ;;
    apiKey <- this_ EmcyTelemetry.apiKey ;;
    mcpServerId <- this_ EmcyTelemetry.mcpServerId ;;
    timestamp <- lift Date_now ;;
    transport <- this_ EmcyTelemetry.transport ;;
    let batch := TelemetryBatch.mk apiKey mcpServerId timestamp invocations in
    lift (perform (TransportSend batch)) ;;
    _ <- lift (send transport batch) ;;
    ret tt.

(** [log(invocation)] *)
Definition log (invocation : ToolInvocation.t) : M World unit :=
  update (fun o => EmcyTelemetry.set_queue (EmcyTelemetry.queue o ++ [invocation]) o) ;;
  debug <- this_ EmcyTelemetry.debug ;;
  when debug
    (lift (console_error
       [VString ("[emcy] Logged: " ++ ToolInvocation.toolName invocation
                 ++ " (" ++ string_of_Z (ToolInvocation.duration invocation) ++ "ms, "
                 ++ (if ToolInvocation.success invocation then "success" else "error")
                 ++ ")")])) ;;
  queue <- this_ EmcyTelemetry.queue ;;
  batchSize <- this_ EmcyTelemetry.batchSize ;;
  when (batchSize <=? Z.of_nat (List.length queue)) (detach flush).

(** [setServerInfo(name, version)] *)
Definition setServerInfo (name version : string) : M World unit :=
  update (fun o =>
    EmcyTelemetry.set_metadata
      (ServerMetadata.mk (Some name) (Some version)
         (ServerMetadata.mcpServerId (EmcyTelemetry.metadata o))) o).

(** [{ sessionId: options?.sessionId, ...this.metadata }] *)
Definition merge_metadata (options : option TraceOptions.t) (m : ServerMetadata.t)
  : Metadata.t :=
  Metadata.mk
    (match options with Some o => TraceOptions.sessionId o | None => None end)
    None None
    (ServerMetadata.serverName m)
    (ServerMetadata.serverVersion m)
    (ServerMetadata.mcpServerId m).

Definition options_input (options : option TraceOptions.t) : option value :=
  match options with Some o => TraceOptions.input o | None => None end.

(** The [try] statement of [trace]: the call of the operation and all
    that follows it.  The fields of each object literal are evaluated in
    the order they are written, so the clock is read before
    [extractError] is called and the metadata after. *)
Definition trace_completion (invocationId : string) (startTime : Z)
    (toolName : string) (fn : M World value)
    (options : option TraceOptions.t) : M World value :=
  try_catch
    (result <- fn ;;
     timestamp <- lift Date_now ;;
     now <- lift Date_now ;;
     metadata <- this_ EmcyTelemetry.metadata ;;
     log (ToolInvocation.mk invocationId toolName timestamp (now - startTime)
            true (options_input options)
            (Some (extractOutput result)) None
            (Some (merge_metadata options metadata))) ;;
     ret result)
    (fun error =>
     timestamp <- lift Date_now ;;
     now <- lift Date_now ;;
     extracted <- completes (extractError error) ;;
     metadata <- this_ EmcyTelemetry.metadata ;;
     log (ToolInvocation.mk invocationId toolName timestamp (now - startTime)
            false (options_input options)
            None (Some extracted)
            (Some (merge_metadata options metadata))) ;;
     throw error).

(** [async trace(toolName, fn, options?)] *)
Definition trace (toolName : string) (fn : M World value)
    (options : option TraceOptions.t) : M World value :=
  invocationId <- lift randomUUID ;;
  startTime <- lift Date_now ;;
  trace_completion invocationId startTime toolName fn options.

(** [async shutdown()] *)
Definition shutdown : M World unit :=
  flushTimer <- this_ EmcyTelemetry.flushTimer ;;
  match flushTimer with
  | Some handle =>
      lift (clearInterval handle) ;;
      update (EmcyTelemetry.set_flushTimer None)
  | None => ret tt
  end ;;
  flush.

(** [private startFlushTimer()]; the callback of the interval is
    [flush_callback]. *)
Definition flush_callback : M World unit := catch_console_error flush.

Definition startFlushTimer : M World unit :=
  flushInterval <- this_ EmcyTelemetry.flushInterval ;;
  handle <- lift (setInterval flushInterval) ;;
  update (EmcyTelemetry.set_flushTimer (Some handle)) ;;
  lift (perform (Unref handle)).

(** [private setupShutdownHooks()]; the listener is [shutdown_listener]. *)
Definition shutdown_listener : M World unit := catch_console_error shutdown.

Definition setupShutdownHooks : M World unit :=
  lift (process_on "beforeExit") ;;
  lift (process_on "SIGINT") ;;
  lift (process_on "SIGTERM").

(** [constructor(config)]: the assignments to the fields, then the two
    private calls. *)
Definition constructor_fields (config : EmcyConfig.t) : EmcyTelemetry.t :=
  let debug := or_bool (EmcyConfig.debug config) false in
  EmcyTelemetry.mk
    (EmcyConfig.apiKey config)
    (EmcyConfig.mcpServerId config)
    (new_TelemetryTransport (EmcyConfig.endpoint config) (Some debug))
    []
    (or_number (EmcyConfig.batchSize config) DEFAULT_BATCH_SIZE)
    (or_number (EmcyConfig.flushInterval config) DEFAULT_FLUSH_INTERVAL)
    None
    debug
    (if truthy_string (EmcyConfig.mcpServerId config)
     then ServerMetadata.mk None None (EmcyConfig.mcpServerId config)
     else ServerMetadata.empty).

Definition new_EmcyTelemetry (config : EmcyConfig.t) (h : Host) : World :=
  snd ((startFlushTimer ;; setupShutdownHooks) (mkWorld (constructor_fields config) h)).

(** ** The process around the collector *)

(** The host at process start: nothing registered, nothing performed. *)
Definition boot (clock : nat -> Z) (uuids : nat -> string)
    (network : nat -> FetchResult) : Host :=
  mkHost clock 0 uuids 0 network 0 [] 0 [] [].

(** The period of an interval elapses: the host runs the callback of a
    handle that is still live, and nothing for a cleared one.  The only
    [setInterval] of the program is the collector's. *)
Definition interval_elapsed (handle : nat) : M World unit :=
  live <- lift (gets (fun h => existsb (Nat.eqb handle) (intervals h))) ;;
  when live flush_callback.

(** The process emits [event]: the listener runs if one was registered. *)
Definition process_emit (event : string) : M World unit :=
  registered <- lift (gets (fun h => existsb (String.eqb event) (listeners h))) ;;
  when registered shutdown_listener.

(** What can happen to a collector: the five public methods, called by
    the application, and the two kinds of host events.  The operation of
    a [CallTrace] settles to [outcome] before anything else happens and
    leaves the collector alone.  A [trace] whose operation is still
    running while other calls are made, by the operation itself or by
    the rest of the application, is the pair [TraceBegins], [trace] up
    to the call of the operation, and [TraceSettles], its [try]
    statement from the moment the operation settles, with the identifier
    and the start time [trace] holds; the calls in between come in
    between.  [TraceSettles] takes any identifier and start time, more
    than the ones some [TraceBegins] drew. *)
Inductive Call : Type :=
| CallSetServerInfo (name version : string)
| CallTrace (toolName : string) (outcome : Completion value)
            (options : option TraceOptions.t)
| CallLog (invocation : ToolInvocation.t)
| CallFlush
| CallShutdown
| IntervalElapsed (handle : nat)
| ProcessEmit (event : string)
| TraceBegins
| TraceSettles (invocationId : string) (startTime : Z) (toolName : string)
               (outcome : Completion value) (options : option TraceOptions.t).

Definition settled (outcome : Completion value) : M World value :=
  fun w => (outcome, w).

Definition invoke (c : Call) : M World unit :=
  match c with
  | CallSetServerInfo name version => setServerInfo name version
  | CallTrace toolName outcome options =>
      detach (trace toolName (settled outcome) options)
  | CallLog invocation => log invocation
  | CallFlush => flush
  | CallShutdown => shutdown
  | IntervalElapsed handle => interval_elapsed handle
  | ProcessEmit event => process_emit event
  | TraceBegins => lift randomUUID ;; lift Date_now ;; ret tt
  | TraceSettles invocationId startTime toolName outcome options =>
      detach (trace_completion invocationId startTime toolName
                               (settled outcome) options)
  end.

Definition exec {A} (m : M World A) (w : World) : World := snd (m w).

Definition run (calls : list Call) (w : World) : World :=
  fold_left (fun w c => exec (invoke c) w) calls w.

(** ** Observations *)

(** The batches handed to [transport.send], oldest first. *)
Fixpoint sent (es : list Effect) : list TelemetryBatch.t :=
  match es with
  | [] => []
  | TransportSend b :: es' => b :: sent es'
  | _ :: es' => sent es'
  end.

(** The [fetch] calls, oldest first. *)
Fixpoint fetched (es : list Effect) : list TelemetryBatch.t :=
  match es with
  | [] => []
  | Fetch _ _ b :: es' => b :: fetched es'
  | _ :: es' => fetched es'
  end.

(** The backoff delays, oldest first. *)
Fixpoint delays (es : list Effect) : list Z :=
  match es with
  | [] => []
  | Delay ms :: es' => ms :: delays es'
  | _ :: es' => delays es'
  end.

(** ** Vocabulary of the statements *)

(** [h] after [n] more [fetch] calls and the effects [es]. *)
Definition host_after (h : Host) (n : nat) (es : list Effect) : Host :=
  mkHost (clock h) (clockReads h) (uuids h) (uuidReads h) (network h)
         (fetchCalls h + n) (intervals h) (nextHandle h) (listeners h)
         (effects h ++ es).

(** How the loop body reads what [fetch] settled to. *)
Inductive Verdict : Type := Delivered | ClientError | Retryable.

Definition verdict (r : FetchResult) : Verdict :=
  match r with
  | Responded resp =>
      if Response.ok resp then Delivered
      else if (400 <=? Response.status resp) && (Response.status resp <? 500)
           then ClientError
           else Retryable
  | Rejected _ => Retryable
  end.

(** The value assigned to [lastError] after a retryable attempt. *)
Definition lastError_of (r : FetchResult) : value :=
  match r with
  | Responded resp =>
      new_Error ("HTTP " ++ string_of_Z (Response.status resp) ++ ": "
                 ++ Response.statusText resp)
  | Rejected reason =>
      if instanceof_Error reason then reason else new_Error (String_ reason)
  end.

Definition request (this : TelemetryTransport.t) (batch : TelemetryBatch.t) : Effect :=
  Fetch (TelemetryTransport.endpoint this)
        ("Bearer " ++ TelemetryBatch.apiKey batch) batch.

Definition sent_line (this : TelemetryTransport.t) (batch : TelemetryBatch.t)
  : list Effect :=
  if TelemetryTransport.debug this then
    [ConsoleError
       [VString ("[emcy] Sent "
                 ++ string_of_Z (Z.of_nat (List.length (TelemetryBatch.invocations batch)))
                 ++ " invocations")]]
  else [].

Definition client_error_line (r : FetchResult) : list Effect :=
  match r with
  | Responded resp =>
      [ConsoleError
         [VString ("[emcy] Client error: " ++ string_of_Z (Response.status resp)
                   ++ " " ++ Response.statusText resp)]]
  | Rejected _ => []
  end.

Definition failed_line (lastError : value) : Effect :=
  ConsoleError
    [VString ("[emcy] Failed to send telemetry after "
              ++ string_of_Z (Z.of_nat MAX_RETRIES) ++ " attempts:");
     get "message" lastError].


(** The delay before attempt [k], for [k >= 1], in the words of the
    backoff schedule: [baseDelay * 2^(k-1)]. *)
Definition backoff (k : Z) : Z := RETRY_DELAY_MS * 2 ^ (k - 1).

(** The three kinds of answer the delivery policy tells apart. *)
Definition indicates_success (r : FetchResult) : bool :=
  match r with
  | Responded resp => Response.ok resp
  | Rejected _ => false
  end.

Definition client_error (r : FetchResult) : bool :=
  match r with
  | Responded resp => (400 <=? Response.status resp) && (Response.status resp <=? 499)
  | Rejected _ => false
  end.

Definition server_error_or_exception (r : FetchResult) : bool :=
  match r with
  | Responded resp => (500 <=? Response.status resp) && (Response.status resp <=? 599)
  | Rejected _ => true
  end.

(** The effects of a whole [send] whose first [fetch] is number
    [fetchCalls h] of the host, read off the answers of the endpoint. *)
Definition transcript (this : TelemetryTransport.t) (batch : TelemetryBatch.t)
    (r : nat -> FetchResult) : bool * nat * list Effect :=
  let F := request this batch in
  match verdict (r 0%nat) with
  | Delivered => (true, 1%nat, F :: sent_line this batch)
  | ClientError => (false, 1%nat, F :: client_error_line (r 0%nat))
  | Retryable =>
      match verdict (r 1%nat) with
      | Delivered => (true, 2%nat, F :: Delay (backoff 1) :: F :: sent_line this batch)
      | ClientError =>
          (false, 2%nat, F :: Delay (backoff 1) :: F :: client_error_line (r 1%nat))
      | Retryable =>
          match verdict (r 2%nat) with
          | Delivered =>
              (true, 3%nat,
               F :: Delay (backoff 1) :: F :: Delay (backoff 2) :: F
                 :: sent_line this batch)
          | ClientError =>
              (false, 3%nat,
               F :: Delay (backoff 1) :: F :: Delay (backoff 2) :: F
                 :: client_error_line (r 2%nat))
          | Retryable =>
              (false, 3%nat,
               [F; Delay (backoff 1); F; Delay (backoff 2); F;
                failed_line (lastError_of (r 2%nat))])
          end
      end
  end.

(** [k] attempts that failed and were retried: each is a request followed
    by the wait before the next attempt. *)
Definition retries (this : TelemetryTransport.t) (batch : TelemetryBatch.t)
    (k : nat) : list Effect :=
  flat_map (fun j => [request this batch; Delay (backoff (Z.of_nat j + 1))]) (seq 0 k).

(** The host after one reading of the clock. *)
Definition clock_read (h : Host) : Host :=
  mkHost (clock h) (S (clockReads h)) (uuids h) (uuidReads h) (network h)
         (fetchCalls h) (intervals h) (nextHandle h) (listeners h) (effects h).

(** The batch a flush of [w] builds, and [w] after that flush has drained
    the queue and its [send] has settled. *)
Definition flush_batch (w : World) : TelemetryBatch.t :=
  TelemetryBatch.mk
    (EmcyTelemetry.apiKey (self w))
    (EmcyTelemetry.mcpServerId (self w))
    (clock (host w) (clockReads (host w)))
    (EmcyTelemetry.queue (self w)).

Definition flushed (w : World) : World :=
  let batch := flush_batch w in
  let '(_, n, es) :=
    transcript (EmcyTelemetry.transport (self w)) batch
               (fun k => network (host w) (fetchCalls (host w) + k)%nat) in
  mkWorld (EmcyTelemetry.set_queue [] (self w))
          (host_after (clock_read (host w)) n (TransportSend batch :: es)).

(** [w] after [log] has pushed [invocation] and written its debug line,
    before the size test. *)
Definition logged_line (invocation : ToolInvocation.t) : Effect :=
  ConsoleError
    [VString ("[emcy] Logged: " ++ ToolInvocation.toolName invocation
              ++ " (" ++ string_of_Z (ToolInvocation.duration invocation) ++ "ms, "
              ++ (if ToolInvocation.success invocation then "success" else "error")
              ++ ")")].

Definition pushed (invocation : ToolInvocation.t) (w : World) : World :=
  mkWorld
    (EmcyTelemetry.set_queue (EmcyTelemetry.queue (self w) ++ [invocation]) (self w))
    (if EmcyTelemetry.debug (self w)
     then host_after (host w) 0 [logged_line invocation]
     else host w).

(** Every record the collector holds or has handed over, oldest first. *)
Definition all_records (w : World) : list ToolInvocation.t :=
  flat_map TelemetryBatch.invocations (sent (effects (host w)))
  ++ EmcyTelemetry.queue (self w).

Definition on_host (f : Host -> Host) (w : World) : World :=
  mkWorld (self w) (f (host w)).

(** The host after one draw from the UUID source. *)
Definition uuid_read (h : Host) : Host :=
  mkHost (clock h) (clockReads h) (uuids h) (S (uuidReads h)) (network h)
         (fetchCalls h) (intervals h) (nextHandle h) (listeners h) (effects h).

(** The world in which [trace] calls the operation: the identifier is
    drawn and the start time is read. *)
Definition entered (w : World) : World :=
  on_host (fun h => clock_read (uuid_read h)) w.

(** The world in which [trace] calls [log]: the timestamp and the end
    time are read. *)
Definition completed (w : World) : World :=
  on_host (fun h => clock_read (clock_read h)) w.

(** The host after [clearInterval(handle)]. *)
Definition cleared (handle : nat) (h : Host) : Host :=
  mkHost (clock h) (clockReads h) (uuids h) (uuidReads h) (network h)
         (fetchCalls h) (filter (fun i => negb (Nat.eqb i handle)) (intervals h))
         (nextHandle h) (listeners h) (effects h ++ [ClearInterval handle]).

(** The world after the first statement of [shutdown]. *)
Definition cancelled (w : World) : World :=
  match EmcyTelemetry.flushTimer (self w) with
  | Some handle =>
      mkWorld (EmcyTelemetry.set_flushTimer None (self w)) (cleared handle (host w))
  | None => w
  end.

(** A structured object, as opposed to a primitive, [null] or
    [undefined]. *)
Definition is_structured_object (v : value) : bool :=
  match v with
  | VObject _ | VError _ _ => true
  | _ => false
  end.

(** An optional field of a record is there. *)
Definition present {A} (field : option A) : bool :=
  match field with Some _ => true | None => false end.

(** The elementary changes of the world that the methods are made of.
    [setServerInfo] is not among them: it is the subject of its own
    statements. *)
Inductive evolves : World -> World -> Prop :=
| ev_refl w : evolves w w
| ev_trans w1 w2 w3 : evolves w1 w2 -> evolves w2 w3 -> evolves w1 w3
| ev_clock w : evolves w (on_host clock_read w)
| ev_uuid w : evolves w (on_host uuid_read w)
| ev_push invocation w : evolves w (pushed invocation w)
| ev_flush w : EmcyTelemetry.queue (self w) <> [] -> evolves w (flushed w)
| ev_cancel w : evolves w (cancelled w).

(** A collector constructed at the start of a process. *)
Definition start (config : EmcyConfig.t) (clock : nat -> Z)
    (uuids : nat -> string) (network : nat -> FetchResult) : World :=
  new_EmcyTelemetry config (boot clock uuids network).

(** The interval timer that is live is the one the collector holds. *)
Definition timer_owned (w : World) : Prop :=
  intervals (host w) =
  match EmcyTelemetry.flushTimer (self w) with
  | Some handle => [handle]
  | None => []
  end.


Definition nonempty_batch (b : TelemetryBatch.t) : Prop :=
  TelemetryBatch.invocations b <> [].

(** Every batch handed to the transport, and every batch put on the
    wire, carries at least one record. *)
Definition batches_nonempty (w : World) : Prop :=
  Forall nonempty_batch (sent (effects (host w))) /\
  Forall nonempty_batch (fetched (effects (host w))).

(** The fields of the collector that are assigned in the constructor
    only. *)
Definition settings (o : EmcyTelemetry.t)
  : string * option string * TelemetryTransport.t * Z * Z * bool :=
  (EmcyTelemetry.apiKey o, EmcyTelemetry.mcpServerId o, EmcyTelemetry.transport o,
   EmcyTelemetry.batchSize o, EmcyTelemetry.flushInterval o, EmcyTelemetry.debug o).


(** ** Vocabulary of the further statements *)

(** The lines written with [console.error], oldest first. *)
Fixpoint consoles (es : list Effect) : list (list value) :=
  match es with
  | [] => []
  | ConsoleError args :: es' => args :: consoles es'
  | _ :: es' => consoles es'
  end.

(** The requests made, each with its address, its [Authorization] header
    and its body, oldest first. *)
Fixpoint requests (es : list Effect) : list (string * string * TelemetryBatch.t) :=
  match es with
  | [] => []
  | Fetch url authorization body :: es' => (url, authorization, body) :: requests es'
  | _ :: es' => requests es'
  end.

(** What the program did to interval timers, oldest first. *)
Fixpoint timer_effects (es : list Effect) : list Effect :=
  match es with
  | [] => []
  | SetInterval handle ms :: es' => SetInterval handle ms :: timer_effects es'
  | Unref handle :: es' => Unref handle :: timer_effects es'
  | ClearInterval handle :: es' => ClearInterval handle :: timer_effects es'
  | _ :: es' => timer_effects es'
  end.

(** The text [send] reports when it gives up after the answer [r]. *)
Definition failure_message (r : FetchResult) : string :=
  match r with
  | Responded resp =>
      "HTTP " ++ string_of_Z (Response.status resp) ++ ": " ++ Response.statusText resp
  | Rejected (VError msg _) => msg
  | Rejected reason => String_ reason
  end.

(** Whether [trace] logs a record for an operation that settles to
    [outcome]: always, except for a thrown value that is no [Error] and
    on which [String] throws. *)
Definition trace_logs (outcome : Completion value) : bool :=
  match outcome with
  | Normal _ => true
  | Thrown error => instanceof_Error error || negb (String_throws error)
  end.

(** The record the [try] statement of [trace] builds in the world [w1]
    in which the operation has settled to [outcome]: two readings of the
    clock come from the host, the metadata from the collector.  It is
    built and logged when [trace_logs outcome] holds. *)
Definition settle_record (invocationId : string) (startTime : Z)
    (toolName : string) (outcome : Completion value)
    (options : option TraceOptions.t) (w1 : World) : ToolInvocation.t :=
  let h := host w1 in
  let n := clockReads h in
  ToolInvocation.mk
    invocationId
    toolName
    (clock h n)
    (clock h (S n) - startTime)
    (match outcome with Normal _ => true | Thrown _ => false end)
    (options_input options)
    (match outcome with Normal result => Some (extractOutput result) | Thrown _ => None end)
    (match outcome with
     | Normal _ => None
     | Thrown error =>
         match extractError error with
         | Normal extracted => Some extracted
         | Thrown _ => None
         end
     end)
    (Some (merge_metadata options (EmcyTelemetry.metadata (self w1)))).

Definition settle_records (invocationId : string) (startTime : Z)
    (toolName : string) (outcome : Completion value)
    (options : option TraceOptions.t) (w1 : World) : list ToolInvocation.t :=
  if trace_logs outcome
  then [settle_record invocationId startTime toolName outcome options w1]
  else [].

(** The same for a whole [trace] called in the world [w], whose operation
    settles at once: the identifier and the start time are those [trace]
    draws in [w]. *)
Definition traced_record (toolName : string) (outcome : Completion value)
    (options : option TraceOptions.t) (w : World) : ToolInvocation.t :=
  settle_record (uuids (host w) (uuidReads (host w)))
                (clock (host w) (clockReads (host w)))
                toolName outcome options (entered w).

Definition traced_records (toolName : string) (outcome : Completion value)
    (options : option TraceOptions.t) (w : World) : list ToolInvocation.t :=
  if trace_logs outcome then [traced_record toolName outcome options w] else [].

(** What [trace] settles to for an operation that settles to [outcome]:
    the same, except that the TypeError of [String] takes the place of a
    thrown value for which no record can be built. *)
Definition trace_outcome (outcome : Completion value) : Completion value :=
  if trace_logs outcome then outcome else Thrown TypeError_to_primitive.

(** The calls that hand a record to the collector, and what the record
    of such a call must be. *)
Definition is_recording (c : Call) : bool :=
  match c with
  | CallLog _ => true
  | CallTrace _ outcome _ => trace_logs outcome
  | TraceSettles _ _ _ outcome _ => trace_logs outcome
  | _ => false
  end.

Definition record_of_call (c : Call) (invocation : ToolInvocation.t) : Prop :=
  match c with
  | CallLog given => invocation = given
  | CallTrace toolName outcome options =>
      ToolInvocation.toolName invocation = toolName /\
      ToolInvocation.success invocation
      = match outcome with Normal _ => true | Thrown _ => false end /\
      ToolInvocation.input invocation = options_input options
  | TraceSettles invocationId startTime toolName outcome options =>
      ToolInvocation.invocationId invocation = invocationId /\
      ToolInvocation.toolName invocation = toolName /\
      ToolInvocation.success invocation
      = match outcome with Normal _ => true | Thrown _ => false end /\
      ToolInvocation.input invocation = options_input options
  | _ => False
  end.

(** The address the requests of a collector configured with [config] go
    to, and what every such request must look like. *)
Definition effective_endpoint (config : EmcyConfig.t) : string :=
  match EmcyConfig.endpoint config with
  | Some e => if (e =? "")%string then DEFAULT_ENDPOINT else e
  | None => DEFAULT_ENDPOINT
  end.

Definition addressed (config : EmcyConfig.t)
    (request : string * string * TelemetryBatch.t) : Prop :=
  let '(url, authorization, body) := request in
  url = effective_endpoint config /\
  authorization = "Bearer " ++ EmcyConfig.apiKey config /\
  TelemetryBatch.apiKey body = EmcyConfig.apiKey config /\
  TelemetryBatch.mcpServerId body = EmcyConfig.mcpServerId config.

(** The three process events the constructor listens to. *)
Definition is_shutdown_event (event : string) : bool :=
  ((event =? "beforeExit") || (event =? "SIGINT") || (event =? "SIGTERM"))%string.

(** An effect a [send] can have: a request for its batch, a wait, a
    console line. *)
Definition transport_effect (this : TelemetryTransport.t)
    (batch : TelemetryBatch.t) (e : Effect) : Prop :=
  match e with
  | Fetch _ _ _ => e = request this batch
  | Delay _ | ConsoleError _ => True
  | _ => False
  end.

(** The timers of a collector constructed at process start with flush
    interval [ms]: one interval was created and unref'd, and it was
    cleared once if the collector holds it no more. *)
Definition timer_history (ms : Z) (w : World) : Prop :=
  match EmcyTelemetry.flushTimer (self w) with
  | Some handle =>
      handle = 0%nat /\
      timer_effects (effects (host w)) = [SetInterval 0 ms; Unref 0]
  | None =>
      timer_effects (effects (host w)) = [SetInterval 0 ms; Unref 0; ClearInterval 0]
  end.

(** The requests made so far are addressed as [config] says, and so will
    the next ones be. *)
Definition requests_addressed (config : EmcyConfig.t) (w : World) : Prop :=
  EmcyTelemetry.apiKey (self w) = EmcyConfig.apiKey config /\
  EmcyTelemetry.mcpServerId (self w) = EmcyConfig.mcpServerId config /\
  TelemetryTransport.endpoint (EmcyTelemetry.transport (self w))
  = effective_endpoint config /\
  Forall (addressed config) (requests (effects (host w))).

(** Nothing was written to the console, and nothing will be as long as
    deliveries succeed. *)
Definition quiet (w : World) : Prop :=
  EmcyTelemetry.debug (self w) = false /\
  TelemetryTransport.debug (EmcyTelemetry.transport (self w)) = false /\
  (forall i, indicates_success (network (host w) i) = true) /\
  consoles (effects (host w)) = [].

(** Every batch handed to the transport is requested at most three
    times, and a request is made for such a batch only: [counts] tells how
    often each batch was requested.  The statement is of the requests as
    a collection, whatever the order in which deliveries under way make
    them. *)
Definition requested_at_most_thrice (w : World) (counts : list nat) : Prop :=
  List.length counts = List.length (sent (effects (host w))) /\
  Forall (fun n => (n <= 3)%nat) counts /\
  Permutation (fetched (effects (host w)))
    (flat_map (fun p => repeat (fst p) (snd p))
              (combine (sent (effects (host w))) counts)).

(** The numbers that JavaScript holds exactly and writes with all their
    digits. *)
Definition safe_integer (n : Z) : Prop := Z.abs n < 2 ^ 53.

(** ** Fixtures of the test suite *)

(** [createBatch()] of [transport.test.ts]; the instant is
    2024-01-01T00:00:00.000Z. *)
Definition test_invocation (invocationId toolName : string) (duration : Z)
  : ToolInvocation.t :=
  ToolInvocation.mk invocationId toolName 1704067200000 duration true
                    None None None None.

Definition test_batch : TelemetryBatch.t :=
  TelemetryBatch.mk "test-api-key" None 1704067200000
                    [test_invocation "inv-1" "testTool" 100].

(** [mockFetch.mockResolvedValueOnce(...)] for each answer, then
    [mockResolvedValue(rest)]. *)
Definition mock_fetch (answers : list FetchResult) (rest : FetchResult)
  : nat -> FetchResult :=
  fun k => nth k answers rest.

Definition status_response (status : Z) (statusText : string) : FetchResult :=
  Responded (Response.mk status statusText).

Definition test_clock : nat -> Z := fun k => 1704067200000 + Z.of_nat k.
Definition test_uuids : nat -> string := fun _ => "test-uuid-1234".

Definition test_host (network : nat -> FetchResult) : Host :=
  boot test_clock test_uuids network.

Definition test_config (mcpServerId : option string) (batchSize : option Z)
  : EmcyConfig.t :=
  EmcyConfig.mk "test-key" None mcpServerId batchSize None None.

Definition test_transport : TelemetryTransport.t :=
  new_TelemetryTransport None None.

Definition server_error : FetchResult := status_response 500 "Server Error".
Definition unavailable : FetchResult := status_response 503 "Service Unavailable".
Definition unauthorized : FetchResult := status_response 401 "Unauthorized".
Definition ok_response : FetchResult := status_response 200 "OK".
(** * Properties *)

Local Open Scope list_scope.

(** ** The host record *)

Lemma host_after_0 h : host_after h 0 [] = h.
Proof.
  destruct h; unfold host_after; simpl.
  now rewrite Nat.add_0_r, app_nil_r.
Qed.

Lemma host_after_after h n es m es' :
  host_after (host_after h n es) m es' = host_after h (n + m) (es ++ es').
Proof.
  unfold host_after; simpl.
  now rewrite Nat.add_assoc, app_assoc.
Qed.

Lemma perform_after e h : perform e h = (Normal tt, host_after h 0 [e]).
Proof.
  unfold perform, modify, host_after. now rewrite Nat.add_0_r.
Qed.

Lemma fetch_after url auth body h :
  fetch url auth body h =
  (match network h (fetchCalls h) with
   | Responded r => Normal r
   | Rejected reason => Thrown reason
   end, host_after h 1 [Fetch url auth body]).
Proof.
  unfold fetch, host_after. rewrite Nat.add_1_r.
  now destruct (network h (fetchCalls h)).
Qed.

(** ** Transport: one attempt *)

Lemma send_attempt_spec this batch h :
  send_attempt this batch h =
  let r := network h (fetchCalls h) in
  match verdict r with
  | Delivered =>
      (Normal (Return true), host_after h 1 (request this batch :: sent_line this batch))
  | ClientError =>
      (Normal (Return false), host_after h 1 (request this batch :: client_error_line r))
  | Retryable =>
      (Normal (Next (lastError_of r)), host_after h 1 [request this batch])
  end.
Proof.
  unfold send_attempt, try_catch, bind at 1. rewrite fetch_after.
  fold (request this batch).
  destruct (network h (fetchCalls h)) as [resp | reason]; simpl; [|reflexivity].
  destruct (Response.ok resp).
  - unfold bind, when, sent_line, console_error.
    destruct (TelemetryTransport.debug this).
    + rewrite perform_after. unfold ret.
      now rewrite host_after_after.
    + reflexivity.
  - destruct ((400 <=? Response.status resp) && (Response.status resp <? 500)).
    + unfold bind, console_error. rewrite perform_after. unfold ret.
      now rewrite host_after_after.
    + reflexivity.
Qed.

(** An attempt never throws: the [catch] takes every rejection. *)
Lemma send_attempt_normal this batch h :
  exists step h', send_attempt this batch h = (Normal step, h').
Proof.
  rewrite send_attempt_spec. cbv zeta.
  destruct (verdict _); eauto.
Qed.

(** ** Transport: the loop *)

Lemma send_loop_S this batch remaining lastError h :
  send_loop this batch (S remaining) lastError h =
  let r := network h (fetchCalls h) in
  let attempt := (MAX_RETRIES - S remaining)%nat in
  match verdict r with
  | Delivered =>
      (Normal (Return true), host_after h 1 (request this batch :: sent_line this batch))
  | ClientError =>
      (Normal (Return false), host_after h 1 (request this batch :: client_error_line r))
  | Retryable =>
      send_loop this batch remaining (lastError_of r)
        (host_after h 1
           (request this batch ::
            if Nat.ltb attempt (MAX_RETRIES - 1)
            then [Delay (RETRY_DELAY_MS * 2 ^ Z.of_nat attempt)] else []))
  end.
Proof.
  cbn [send_loop]. unfold bind at 1. rewrite send_attempt_spec. cbv zeta.
  destruct (verdict (network h (fetchCalls h))); try reflexivity.
  unfold bind, when, delay.
  destruct (Nat.ltb (MAX_RETRIES - S remaining) (MAX_RETRIES - 1)).
  - rewrite perform_after, host_after_after. reflexivity.
  - reflexivity.
Qed.

(** The whole of [send], for every host: it settles normally, to the
    boolean and with the effects of [transcript]. *)
Lemma send_transcript this batch h :
  send this batch h =
  let '(delivered, n, es) :=
    transcript this batch (fun k => network h (fetchCalls h + k)%nat) in
  (Normal delivered, host_after h n es).
Proof.
  unfold send, transcript, bind at 1.
  change MAX_RETRIES with 3%nat at 1.
  rewrite send_loop_S. cbv zeta.
  rewrite Nat.add_0_r.
  destruct (verdict (network h (fetchCalls h))); try reflexivity.
  rewrite send_loop_S. cbv zeta.
  cbn [network fetchCalls host_after].
  destruct (verdict (network h (fetchCalls h + 1))).
  1,2: rewrite host_after_after; reflexivity.
  rewrite send_loop_S. cbv zeta.
  rewrite host_after_after.
  cbn [network fetchCalls host_after].
  change (1 + 1)%nat with 2%nat.
  destruct (verdict (network h (fetchCalls h + 2))).
  1,2: rewrite host_after_after; reflexivity.
  cbn [send_loop]. unfold ret, console_error, bind.
  rewrite perform_after, !host_after_after. reflexivity.
Qed.

Lemma verdict_success r : indicates_success r = true -> verdict r = Delivered.
Proof.
  destruct r as [resp|]; simpl; [|discriminate].
  now intros ->.
Qed.

Lemma verdict_client_error r : client_error r = true -> verdict r = ClientError.
Proof.
  destruct r as [resp|]; simpl; [|discriminate].
  unfold Response.ok. intros H.
  apply andb_true_iff in H as [H1 H2].
  apply Z.leb_le in H1. apply Z.leb_le in H2.
  replace (Response.status resp <=? 299) with false by (symmetry; apply Z.leb_gt; lia).
  rewrite andb_false_r.
  replace (400 <=? Response.status resp) with true by (symmetry; apply Z.leb_le; lia).
  replace (Response.status resp <? 500) with true by (symmetry; apply Z.ltb_lt; lia).
  reflexivity.
Qed.

Lemma verdict_server_error r :
  server_error_or_exception r = true -> verdict r = Retryable.
Proof.
  destruct r as [resp|]; simpl; [|reflexivity].
  unfold Response.ok. intros H.
  apply andb_true_iff in H as [H1 H2].
  apply Z.leb_le in H1. apply Z.leb_le in H2.
  replace (Response.status resp <=? 299) with false by (symmetry; apply Z.leb_gt; lia).
  rewrite andb_false_r.
  replace (Response.status resp <? 500) with false by (symmetry; apply Z.ltb_ge; lia).
  now rewrite andb_false_r.
Qed.

(** An attempt that is followed by another one: it neither delivered nor
    met a client error. *)
Lemma verdict_retryable r :
  indicates_success r = false -> client_error r = false -> verdict r = Retryable.
Proof.
  destruct r as [resp|]; simpl; [|reflexivity].
  intros -> H.
  replace (Response.status resp <? 500) with (Response.status resp <=? 499).
  - now rewrite H.
  - destruct (Z.leb_spec (Response.status resp) 499);
      symmetry; [apply Z.ltb_lt | apply Z.ltb_ge]; lia.
Qed.

Lemma fetched_sent_line this batch : fetched (sent_line this batch) = [].
Proof. unfold sent_line. now destruct (TelemetryTransport.debug this). Qed.

Lemma delays_sent_line this batch : delays (sent_line this batch) = [].
Proof. unfold sent_line. now destruct (TelemetryTransport.debug this). Qed.

Lemma fetched_client_error_line r : fetched (client_error_line r) = [].
Proof. now destruct r. Qed.

Lemma delays_client_error_line r : delays (client_error_line r) = [].
Proof. now destruct r. Qed.

(** For every endpoint: between one and three requests, all for the same
    batch, and between them the waits of the schedule, in order. *)
Lemma transcript_shape this batch r :
  let '(_, n, es) := transcript this batch r in
  (1 <= n <= 3)%nat /\
  fetched es = repeat batch n /\
  delays es = firstn (n - 1) [backoff 1; backoff 2].
Proof.
  unfold transcript.
  destruct (verdict (r 0%nat)); [| |destruct (verdict (r 1%nat));
    [| |destruct (verdict (r 2%nat))]];
  cbn [fetched delays request Nat.sub firstn repeat];
  rewrite ?fetched_sent_line, ?delays_sent_line,
          ?fetched_client_error_line, ?delays_client_error_line;
  (split; [lia | split; reflexivity]).
Qed.

(** C2: [send] makes at most three attempts, one after the other.  An
    attempt that succeeds makes it return [true] at once; a 5xx answer or
    a network exception uses up an attempt and, when one is left, is
    followed by the wait [backoff k] before attempt [k], which is 1000 ms
    before the second and 2000 ms before the third; three such failures
    make it return [false]. *)
Theorem send_bounded_backoff (this : TelemetryTransport.t)
    (batch : TelemetryBatch.t) (h : Host) :
  let r := fun k => network h (fetchCalls h + k)%nat in
  (exists delivered n es,
      send this batch h = (Normal delivered, host_after h n es) /\
      (1 <= n <= 3)%nat /\
      fetched es = repeat batch n /\
      delays es = firstn (n - 1) [backoff 1; backoff 2]) /\
  (forall k, (k < 3)%nat ->
      (forall j, (j < k)%nat -> server_error_or_exception (r j) = true) ->
      indicates_success (r k) = true ->
      send this batch h =
      (Normal true,
       host_after h (S k)
         (retries this batch k ++ request this batch :: sent_line this batch))) /\
  ((forall j, (j < 3)%nat -> server_error_or_exception (r j) = true) ->
      send this batch h =
      (Normal false,
       host_after h 3
         (retries this batch 2 ++
          [request this batch; failed_line (lastError_of (r 2%nat))]))) /\
  backoff 1 = 1000 /\ backoff 2 = 2000.
Proof.
  intros r. repeat split.
  - rewrite send_transcript. fold r.
    pose proof (transcript_shape this batch r) as Hs.
    destruct (transcript this batch r) as [[delivered n] es].
    exists delivered, n, es. intuition.
  - intros k Hk Hfail Hok.
    rewrite send_transcript. fold r. unfold transcript.
    destruct k as [|[|[|k]]]; try lia.
    + now rewrite (verdict_success _ Hok).
    + rewrite (verdict_server_error (r 0%nat)) by (apply Hfail; lia).
      now rewrite (verdict_success _ Hok).
    + rewrite (verdict_server_error (r 0%nat)) by (apply Hfail; lia).
      rewrite (verdict_server_error (r 1%nat)) by (apply Hfail; lia).
      now rewrite (verdict_success _ Hok).
  - intros Hfail.
    rewrite send_transcript. fold r. unfold transcript.
    rewrite (verdict_server_error (r 0%nat)) by (apply Hfail; lia).
    rewrite (verdict_server_error (r 1%nat)) by (apply Hfail; lia).
    rewrite (verdict_server_error (r 2%nat)) by (apply Hfail; lia).
    reflexivity.
Qed.

(** C3: an attempt answered with a status from 400 to 499 makes [send]
    return [false] right after it: no wait, no further attempt.  Against
    an endpoint that always answers 401 there is exactly one attempt. *)
Theorem send_client_error_no_retry (this : TelemetryTransport.t)
    (batch : TelemetryBatch.t) (h : Host) :
  let r := fun k => network h (fetchCalls h + k)%nat in
  (forall k, (k < 3)%nat ->
      (forall j, (j < k)%nat ->
         indicates_success (r j) = false /\ client_error (r j) = false) ->
      client_error (r k) = true ->
      send this batch h =
      (Normal false,
       host_after h (S k)
         (retries this batch k ++ request this batch :: client_error_line (r k)))) /\
  (forall statusText,
      (forall i, network h i = Responded (Response.mk 401 statusText)) ->
      exists line,
        send this batch h =
        (Normal false, host_after h 1 [request this batch; ConsoleError line])).
Proof.
  intros r. split.
  - intros k Hk Hretry H4xx.
    rewrite send_transcript. fold r. unfold transcript.
    destruct k as [|[|[|k]]]; try lia.
    + now rewrite (verdict_client_error _ H4xx).
    + rewrite (verdict_retryable (r 0%nat)) by (apply Hretry; lia).
      now rewrite (verdict_client_error _ H4xx).
    + rewrite (verdict_retryable (r 0%nat)) by (apply Hretry; lia).
      rewrite (verdict_retryable (r 1%nat)) by (apply Hretry; lia).
      now rewrite (verdict_client_error _ H4xx).
  - intros statusText Hall.
    rewrite send_transcript. unfold transcript.
    rewrite !Hall. cbn [verdict]. cbn.
    eexists. reflexivity.
Qed.

(** ** Collector: the queue *)

Lemma flush_spec w :
  flush w =
  (Normal tt,
   if (List.length (EmcyTelemetry.queue (self w)) =? 0)%nat then w else flushed w).
Proof.
  unfold flush, bind at 1, this_ at 1, gets.
  destruct (List.length (EmcyTelemetry.queue (self w)) =? 0)%nat; [reflexivity|].
  unfold flushed, flush_batch.
  unfold bind, this_, gets, update, modify, lift, Date_now. simpl.
  rewrite send_transcript. simpl.
  destruct (transcript _ _ _) as [[delivered n] es].
  unfold ret, host_after, clock_read. simpl.
  now rewrite <- app_assoc.
Qed.

Lemma log_spec invocation w :
  log invocation w =
  (Normal tt,
   if EmcyTelemetry.batchSize (self w)
      <=? Z.of_nat (List.length (EmcyTelemetry.queue (self w) ++ [invocation]))
   then flushed (pushed invocation w)
   else pushed invocation w).
Proof.
  unfold pushed.
  unfold log, bind, this_, gets, update, modify, when, lift, console_error.
  cbn [self host fst snd EmcyTelemetry.debug EmcyTelemetry.set_queue
       EmcyTelemetry.queue EmcyTelemetry.batchSize].
  destruct (EmcyTelemetry.debug (self w)).
  - rewrite perform_after.
    cbn [self host EmcyTelemetry.set_queue EmcyTelemetry.queue
         EmcyTelemetry.batchSize].
    destruct (EmcyTelemetry.batchSize (self w) <=? _); [|reflexivity].
    unfold detach. rewrite flush_spec.
    cbn [self host EmcyTelemetry.set_queue EmcyTelemetry.queue].
    rewrite length_app, Nat.add_1_r. reflexivity.
  - unfold ret.
    cbn [self host EmcyTelemetry.set_queue EmcyTelemetry.queue
         EmcyTelemetry.batchSize].
    destruct (EmcyTelemetry.batchSize (self w) <=? _); [|reflexivity].
    unfold detach. rewrite flush_spec.
    cbn [self host EmcyTelemetry.set_queue EmcyTelemetry.queue].
    rewrite length_app, Nat.add_1_r. reflexivity.
Qed.

Lemma log_normal invocation w : fst (log invocation w) = Normal tt.
Proof. now rewrite log_spec. Qed.

Lemma shutdown_spec w : shutdown w = flush (cancelled w).
Proof.
  unfold shutdown, cancelled, bind at 1, this_ at 1, gets.
  destruct (EmcyTelemetry.flushTimer (self w)) as [handle|]; reflexivity.
Qed.

Lemma lift_randomUUID w :
  lift randomUUID w =
  (Normal (uuids (host w) (uuidReads (host w))), on_host uuid_read w).
Proof. reflexivity. Qed.

Lemma lift_Date_now w :
  lift Date_now w =
  (Normal (clock (host w) (clockReads (host w))), on_host clock_read w).
Proof. reflexivity. Qed.

Lemma log_result invocation w :
  log invocation w = (Normal tt, exec (log invocation) w).
Proof.
  unfold exec. pose proof (log_normal invocation w) as Hn.
  destruct (log invocation w) as [c w']. cbn [fst snd] in *. now subst c.
Qed.

(** The [try] statement of [trace], run where the operation is called:
    once the operation has settled, the clock is read twice; then [log]
    is called on the one record built from the way it settled and [trace]
    settles the same way; unless the operation threw a value that
    [extractError] cannot convert, in which case nothing is logged and
    [trace] throws the TypeError of the conversion. *)
Lemma trace_completion_spec invocationId startTime toolName fn options w :
  trace_completion invocationId startTime toolName fn options w =
  (trace_outcome (fst (fn w)),
   run (map CallLog
          (settle_records invocationId startTime toolName (fst (fn w)) options
                          (snd (fn w))))
       (completed (snd (fn w)))).
Proof.
  unfold trace_completion, try_catch, bind at 1.
  destruct (fn w) as [[result|error] w1]; cbn [fst snd].
  - unfold bind at 1. rewrite lift_Date_now. cbv beta iota.
    unfold bind at 1. rewrite lift_Date_now. cbv beta iota.
    change (on_host clock_read (on_host clock_read w1)) with (completed w1).
    unfold bind at 1, this_ at 1, gets. cbv beta iota.
    unfold bind at 1. rewrite log_result. reflexivity.
  - unfold bind at 1. rewrite lift_Date_now. cbv beta iota.
    unfold bind at 1. rewrite lift_Date_now. cbv beta iota.
    change (on_host clock_read (on_host clock_read w1)) with (completed w1).
    unfold bind at 1, completes at 1.
    unfold trace_outcome, settle_records, settle_record, trace_logs.
    unfold extractError, String_call.
    destruct (instanceof_Error error); cbn [orb negb].
    + unfold bind at 1, this_ at 1, gets. cbv beta iota.
      unfold bind at 1. rewrite log_result. reflexivity.
    + destruct (String_throws error); cbn [negb].
      * reflexivity.
      * unfold bind at 1, this_ at 1, gets. cbv beta iota.
        unfold bind at 1. rewrite log_result. reflexivity.
Qed.

(** The same for the whole of [trace]: the operation runs in [entered w],
    where the identifier is drawn and the start time read. *)
Lemma trace_spec toolName fn options w :
  trace toolName fn options w =
  (trace_outcome (fst (fn (entered w))),
   run (map CallLog
          (settle_records (uuids (host w) (uuidReads (host w)))
                          (clock (host w) (clockReads (host w)))
                          toolName (fst (fn (entered w))) options
                          (snd (fn (entered w)))))
       (completed (snd (fn (entered w))))).
Proof.
  unfold trace.
  unfold bind at 1. rewrite lift_randomUUID. cbv beta iota.
  unfold bind at 1. rewrite lift_Date_now. cbv beta iota.
  change (on_host clock_read (on_host uuid_read w)) with (entered w).
  apply trace_completion_spec.
Qed.

Lemma settle_records_length invocationId startTime toolName outcome options w1 :
  List.length (settle_records invocationId startTime toolName outcome options w1)
  = if trace_logs outcome then 1%nat else 0%nat.
Proof. unfold settle_records. now destruct (trace_logs outcome). Qed.

Lemma run_logs_evolves records : forall w, evolves w (run (map CallLog records) w).
Proof.
  induction records as [|x records IH]; intros w; [apply ev_refl|].
  change (run (map CallLog (x :: records)) w)
    with (run (map CallLog records) (exec (log x) w)).
  eapply ev_trans; [|apply IH].
  unfold exec. rewrite log_spec. cbn [snd].
  destruct (EmcyTelemetry.batchSize (self w) <=? _).
  - eapply ev_trans; [apply ev_push|].
    apply ev_flush. cbn [pushed self EmcyTelemetry.set_queue EmcyTelemetry.queue].
    intros H. now apply app_eq_nil in H as [_ H].
  - apply ev_push.
Qed.

Lemma sent_app es es' : sent (es ++ es') = sent es ++ sent es'.
Proof.
  induction es as [|e es IH]; [reflexivity|].
  destruct e; simpl; now rewrite ?IH.
Qed.

Lemma sent_sent_line this batch : sent (sent_line this batch) = [].
Proof. unfold sent_line. now destruct (TelemetryTransport.debug this). Qed.

Lemma sent_client_error_line r : sent (client_error_line r) = [].
Proof. now destruct r. Qed.

(** The transport hands nothing over: a batch enters it from [flush] only. *)
Lemma sent_transcript this batch r :
  let '(_, _, es) := transcript this batch r in sent es = [].
Proof.
  unfold transcript.
  destruct (verdict (r 0%nat)); [| |destruct (verdict (r 1%nat));
    [| |destruct (verdict (r 2%nat))]];
  cbn [sent request]; now rewrite ?sent_sent_line, ?sent_client_error_line.
Qed.

Lemma flushed_sent w :
  sent (effects (host (flushed w))) = sent (effects (host w)) ++ [flush_batch w].
Proof.
  unfold flushed.
  pose proof (sent_transcript (EmcyTelemetry.transport (self w)) (flush_batch w)
                (fun k => network (host w) (fetchCalls (host w) + k)%nat)) as Hs.
  destruct (transcript _ _ _) as [[delivered n] es].
  cbn [host host_after effects clock_read].
  rewrite sent_app. cbn [sent]. now rewrite Hs.
Qed.

Lemma flushed_self w : self (flushed w) = EmcyTelemetry.set_queue [] (self w).
Proof.
  unfold flushed. now destruct (transcript _ _ _) as [[delivered n] es].
Qed.

Lemma pushed_sent invocation w :
  sent (effects (host (pushed invocation w))) = sent (effects (host w)).
Proof.
  unfold pushed. cbn [host].
  destruct (EmcyTelemetry.debug (self w)); [|reflexivity].
  cbn [host_after effects]. rewrite sent_app. cbn [sent logged_line].
  apply app_nil_r.
Qed.

(** [log] adds its record after all the others and loses none, whether
    or not it flushes. *)
Lemma all_records_log invocation w :
  all_records (exec (log invocation) w) = all_records w ++ [invocation].
Proof.
  unfold exec. rewrite log_spec. cbn [snd]. unfold all_records.
  destruct (EmcyTelemetry.batchSize (self w) <=? _).
  - rewrite flushed_sent, flushed_self, pushed_sent.
    rewrite flat_map_app. cbn [flat_map flush_batch TelemetryBatch.invocations
      EmcyTelemetry.set_queue EmcyTelemetry.queue pushed self].
    now rewrite !app_nil_r, app_assoc.
  - rewrite pushed_sent.
    cbn [pushed self EmcyTelemetry.set_queue EmcyTelemetry.queue].
    now rewrite app_assoc.
Qed.

(** ** Collector: [trace] *)

Lemma trace_exec_logged toolName fn options w :
  trace_logs (fst (fn (entered w))) = true ->
  exec (trace toolName fn options) w =
  exec (log (settle_record (uuids (host w) (uuidReads (host w)))
                           (clock (host w) (clockReads (host w)))
                           toolName (fst (fn (entered w))) options
                           (snd (fn (entered w)))))
       (completed (snd (fn (entered w)))).
Proof.
  intros Hlogs. unfold exec at 1. rewrite trace_spec. cbn [snd].
  unfold settle_records. now rewrite Hlogs.
Qed.

Lemma trace_exec_unlogged toolName fn options w :
  trace_logs (fst (fn (entered w))) = false ->
  exec (trace toolName fn options) w = completed (snd (fn (entered w))).
Proof.
  intros Hlogs. unfold exec at 1. rewrite trace_spec. cbn [snd].
  unfold settle_records. now rewrite Hlogs.
Qed.

Lemma all_records_on_host f w :
  effects (f (host w)) = effects (host w) ->
  all_records (on_host f w) = all_records w.
Proof. unfold all_records, on_host. cbn [host self]. now intros ->. Qed.

Lemma all_records_entered w : all_records (entered w) = all_records w.
Proof. now apply all_records_on_host. Qed.

Lemma all_records_completed w : all_records (completed w) = all_records w.
Proof. now apply all_records_on_host. Qed.

(** C1, as the code has it: [trace] settles as the traced operation does,
    to the same value or with the same thrown value, in every case but
    one.  When the operation throws a value that is no [Error] and that
    [String] cannot convert, the plain object [{toString: 1}] for one,
    [extractError] throws in the [catch] block before the record is
    logged and before the value is rethrown: [trace] then throws the
    TypeError of the conversion in place of the thrown value, and logs
    nothing. *)
Theorem trace_masks_unconvertible_throw (toolName : string)
    (fn : M World value) (options : option TraceOptions.t) (w : World) :
  fst (trace toolName fn options w)
  = (if trace_logs (fst (fn (entered w))) then fst (fn (entered w))
     else Thrown TypeError_to_primitive) /\
  (forall result,
      fst (trace toolName (settled (Normal result)) options w) = Normal result) /\
  (let thrown := VObject [("toString", VNumber 1)]%string in
   fst (trace toolName (settled (Thrown thrown)) options w)
   = Thrown TypeError_to_primitive /\
   TypeError_to_primitive <> thrown /\
   all_records (exec (trace toolName (settled (Thrown thrown)) options) w)
   = all_records w).
Proof.
  split; [|split].
  - now rewrite trace_spec.
  - intros result. now rewrite trace_spec.
  - cbn zeta. split; [now rewrite trace_spec|]. split; [discriminate|].
    rewrite trace_exec_unlogged by reflexivity.
    cbn [settled snd]. now rewrite all_records_completed, all_records_entered.
Qed.

(** C6: the record [trace] logs has [output] and no [error] when
    [success] is true, and [error] and no [output] when it is false;
    [success] tells whether the operation returned.  [trace] logs one
    record, except for an operation that throws a value [extractError]
    cannot convert: then [trace] builds no record and logs none. *)
Theorem trace_record_output_xor_error (toolName : string) (fn : M World value)
    (options : option TraceOptions.t) (w : World) :
  if trace_logs (fst (fn (entered w))) then
    exists invocation,
      exec (trace toolName fn options) w =
      exec (log invocation) (completed (snd (fn (entered w)))) /\
      all_records (exec (trace toolName fn options) w) =
      all_records (snd (fn (entered w))) ++ [invocation] /\
      present (ToolInvocation.output invocation) = ToolInvocation.success invocation /\
      present (ToolInvocation.error invocation) = negb (ToolInvocation.success invocation) /\
      ToolInvocation.success invocation =
      match fst (fn (entered w)) with Normal _ => true | Thrown _ => false end
  else
    exec (trace toolName fn options) w = completed (snd (fn (entered w))) /\
    all_records (exec (trace toolName fn options) w) =
    all_records (snd (fn (entered w))).
Proof.
  destruct (trace_logs (fst (fn (entered w)))) eqn:Hlogs.
  - eexists. split; [apply (trace_exec_logged _ _ _ _ Hlogs)|]. split.
    { rewrite (trace_exec_logged _ _ _ _ Hlogs), all_records_log.
      now rewrite all_records_completed. }
    unfold settle_record.
    cbn [ToolInvocation.output ToolInvocation.error ToolInvocation.success].
    destruct (fst (fn (entered w))) as [result|error]; [now repeat split|].
    cbn [trace_logs] in Hlogs. unfold extractError, String_call.
    destruct (instanceof_Error error); [now repeat split|].
    cbn [orb] in Hlogs. apply negb_true_iff in Hlogs. rewrite Hlogs.
    now repeat split.
  - split; [apply (trace_exec_unlogged _ _ _ _ Hlogs)|].
    rewrite (trace_exec_unlogged _ _ _ _ Hlogs). apply all_records_completed.
Qed.

Lemma extractOutput_cases r :
  extractOutput r =
  if is_structured_object r && has_property "status" r
  then Output.mk (Some (get "status" r)) (get "data" r)
  else Output.mk None r.
Proof.
  unfold extractOutput. destruct r as [| |b|n|s|props|msg props]; try reflexivity.
  - simpl. now destruct b.
  - simpl. now destruct (negb (n =? 0)).
  - simpl. now destruct (negb (s =? "")%string).
Qed.

(** C7: the output recorded for a result [r] that is a structured object
    with a [status] field is [{status: r.status, body: r.data}], and for
    any other result it is [{body: r}]; tracing an operation that returns
    42 queues a record whose output body is 42. *)
Theorem trace_output_extraction :
  (forall toolName fn options w,
    if trace_logs (fst (fn (entered w))) then
      exists invocation,
        exec (trace toolName fn options) w =
        exec (log invocation) (completed (snd (fn (entered w)))) /\
        ToolInvocation.output invocation =
        match fst (fn (entered w)) with
        | Normal r =>
            Some (if is_structured_object r && has_property "status" r
                  then Output.mk (Some (get "status" r)) (get "data" r)
                  else Output.mk None r)
        | Thrown _ => None
        end
    else
      exec (trace toolName fn options) w = completed (snd (fn (entered w)))) /\
  (forall options w,
    exists invocation,
      all_records (exec (trace "x" (settled (Normal (VNumber 42))) options) w) =
      all_records w ++ [invocation] /\
      ToolInvocation.success invocation = true /\
      ToolInvocation.output invocation = Some (Output.mk None (VNumber 42))).
Proof.
  split.
  - intros toolName fn options w.
    destruct (trace_logs (fst (fn (entered w)))) eqn:Hlogs.
    + eexists. split; [apply (trace_exec_logged _ _ _ _ Hlogs)|].
      unfold settle_record. cbn [ToolInvocation.output].
      destruct (fst (fn (entered w))); [|reflexivity].
      now rewrite extractOutput_cases.
    + apply (trace_exec_unlogged _ _ _ _ Hlogs).
  - intros options w. eexists. split; [|split].
    + rewrite trace_exec_logged by reflexivity.
      rewrite all_records_log. cbn [settled snd].
      now rewrite all_records_completed, all_records_entered.
    + reflexivity.
    + reflexivity.
Qed.

(** ** Collector: every call is made of elementary changes *)

Lemma queue_nonempty_length (q : list ToolInvocation.t) :
  (List.length q =? 0)%nat = false -> q <> [].
Proof. destruct q; [discriminate | discriminate]. Qed.

Lemma flush_evolves w : evolves w (exec flush w).
Proof.
  unfold exec. rewrite flush_spec. cbn [snd].
  destruct (List.length (EmcyTelemetry.queue (self w)) =? 0)%nat eqn:Hq.
  - apply ev_refl.
  - apply ev_flush. now apply queue_nonempty_length.
Qed.

Lemma log_evolves invocation w : evolves w (exec (log invocation) w).
Proof.
  unfold exec. rewrite log_spec. cbn [snd].
  destruct (EmcyTelemetry.batchSize (self w) <=? _).
  - eapply ev_trans; [apply ev_push|].
    apply ev_flush. cbn [pushed self EmcyTelemetry.set_queue EmcyTelemetry.queue].
    intros H. now apply app_eq_nil in H as [_ H].
  - apply ev_push.
Qed.

Lemma shutdown_evolves w : evolves w (exec shutdown w).
Proof.
  unfold exec. rewrite shutdown_spec.
  eapply ev_trans; [apply ev_cancel | apply flush_evolves].
Qed.

Lemma entered_evolves w : evolves w (entered w).
Proof.
  eapply ev_trans; [apply ev_uuid | apply (ev_clock (on_host uuid_read w))].
Qed.

Lemma completed_evolves w : evolves w (completed w).
Proof.
  eapply ev_trans; [apply ev_clock | apply (ev_clock (on_host clock_read w))].
Qed.

Lemma trace_completion_evolves invocationId startTime toolName outcome options w :
  evolves w (exec (trace_completion invocationId startTime toolName
                                    (settled outcome) options) w).
Proof.
  unfold exec. rewrite trace_completion_spec. cbn [snd settled].
  eapply ev_trans; [apply completed_evolves|]. apply run_logs_evolves.
Qed.

Lemma trace_evolves toolName outcome options w :
  evolves w (exec (trace toolName (settled outcome) options) w).
Proof.
  unfold exec. rewrite trace_spec. cbn [snd settled].
  eapply ev_trans; [apply entered_evolves|].
  eapply ev_trans; [apply completed_evolves|]. apply run_logs_evolves.
Qed.

Lemma detach_exec {A} (m : M World A) w : exec (detach m) w = exec m w.
Proof. unfold exec, detach. now destruct (m w). Qed.

Lemma flush_callback_exec w : exec flush_callback w = exec flush w.
Proof.
  unfold flush_callback, catch_console_error. rewrite detach_exec.
  unfold exec, try_catch. now rewrite flush_spec.
Qed.

Lemma shutdown_listener_exec w : exec shutdown_listener w = exec shutdown w.
Proof.
  unfold shutdown_listener, catch_console_error. rewrite detach_exec.
  unfold exec, try_catch. now rewrite shutdown_spec, flush_spec.
Qed.

Lemma interval_elapsed_exec handle w :
  exec (interval_elapsed handle) w =
  if existsb (Nat.eqb handle) (intervals (host w)) then exec flush w else w.
Proof.
  rewrite <- flush_callback_exec.
  unfold interval_elapsed, exec, bind, lift, gets, when. cbn [fst snd].
  destruct w as [o h]. cbn [host self].
  now destruct (existsb (Nat.eqb handle) (intervals h)).
Qed.

Lemma process_emit_exec event w :
  exec (process_emit event) w =
  if existsb (String.eqb event) (listeners (host w)) then exec shutdown w else w.
Proof.
  rewrite <- shutdown_listener_exec.
  unfold process_emit, exec, bind, lift, gets, when. cbn [fst snd].
  destruct w as [o h]. cbn [host self].
  now destruct (existsb (String.eqb event) (listeners h)).
Qed.

(** Every call but [setServerInfo] is a sequence of elementary changes. *)
Lemma invoke_evolves c w :
  match c with
  | CallSetServerInfo _ _ => True
  | _ => evolves w (exec (invoke c) w)
  end.
Proof.
  destruct c; cbn [invoke]; trivial.
  - rewrite detach_exec. apply trace_evolves.
  - apply log_evolves.
  - apply flush_evolves.
  - apply shutdown_evolves.
  - rewrite interval_elapsed_exec.
    destruct (existsb _ _); [apply flush_evolves | apply ev_refl].
  - rewrite process_emit_exec.
    destruct (existsb _ _); [apply shutdown_evolves | apply ev_refl].
  - apply entered_evolves.
  - rewrite detach_exec. apply trace_completion_evolves.
Qed.

Lemma run_invariant (P : World -> Prop) :
  (forall c w, P w -> P (exec (invoke c) w)) ->
  forall calls w, P w -> P (run calls w).
Proof.
  intros Hstep calls. induction calls as [|c calls IH]; intros w Hw.
  - exact Hw.
  - cbn [run fold_left]. apply IH. now apply Hstep.
Qed.

(** ** Collector: what the elementary changes keep *)

Lemma flushed_intervals w : intervals (host (flushed w)) = intervals (host w).
Proof.
  unfold flushed. now destruct (transcript _ _ _) as [[delivered n] es].
Qed.

Lemma pushed_intervals invocation w :
  intervals (host (pushed invocation w)) = intervals (host w).
Proof.
  unfold pushed. cbn [host]. now destruct (EmcyTelemetry.debug (self w)).
Qed.

Lemma evolves_fields w w' :
  evolves w w' ->
  EmcyTelemetry.metadata (self w') = EmcyTelemetry.metadata (self w) /\
  settings (self w') = settings (self w).
Proof.
  induction 1 as [w|w1 w2 w3 _ [IH1 IH1'] _ [IH2 IH2']|w|w|invocation w|w Hq|w].
  - now split.
  - split; congruence.
  - now split.
  - now split.
  - now split.
  - rewrite flushed_self. now split.
  - unfold cancelled. now destruct (EmcyTelemetry.flushTimer (self w)).
Qed.

Lemma evolves_timer_owned w w' : evolves w w' -> timer_owned w -> timer_owned w'.
Proof.
  unfold timer_owned.
  induction 1 as [w|w1 w2 w3 _ IH1 _ IH2|w|w|invocation w|w Hq|w]; intros Hw.
  - exact Hw.
  - auto.
  - exact Hw.
  - exact Hw.
  - now rewrite pushed_intervals.
  - now rewrite flushed_intervals, flushed_self.
  - unfold cancelled.
    destruct (EmcyTelemetry.flushTimer (self w)) as [handle|] eqn:Ht.
    + cbn [host self cleared intervals EmcyTelemetry.set_flushTimer
           EmcyTelemetry.flushTimer].
      rewrite Hw. cbn [filter]. now rewrite Nat.eqb_refl.
    + now rewrite Ht.
Qed.


Lemma fetched_app es es' : fetched (es ++ es') = fetched es ++ fetched es'.
Proof.
  induction es as [|e es IH]; [reflexivity|].
  destruct e; simpl; now rewrite ?IH.
Qed.

Lemma flushed_fetched w :
  exists n,
    fetched (effects (host (flushed w))) =
    fetched (effects (host w)) ++ repeat (flush_batch w) n.
Proof.
  unfold flushed.
  pose proof (transcript_shape (EmcyTelemetry.transport (self w)) (flush_batch w)
                (fun k => network (host w) (fetchCalls (host w) + k)%nat)) as Hs.
  destruct (transcript _ _ _) as [[delivered n] es].
  destruct Hs as (_ & Hf & _).
  exists n. cbn [host host_after effects clock_read].
  rewrite fetched_app. cbn [fetched]. now rewrite Hf.
Qed.

Lemma pushed_fetched invocation w :
  fetched (effects (host (pushed invocation w))) = fetched (effects (host w)).
Proof.
  unfold pushed. cbn [host].
  destruct (EmcyTelemetry.debug (self w)); [|reflexivity].
  cbn [host_after effects]. rewrite fetched_app. cbn [fetched logged_line].
  apply app_nil_r.
Qed.

Lemma cancelled_observed w :
  sent (effects (host (cancelled w))) = sent (effects (host w)) /\
  fetched (effects (host (cancelled w))) = fetched (effects (host w)).
Proof.
  unfold cancelled.
  destruct (EmcyTelemetry.flushTimer (self w)); [|now split].
  cbn [host cleared effects]. rewrite sent_app, fetched_app.
  cbn [sent fetched]. now rewrite !app_nil_r.
Qed.

Lemma evolves_batches_nonempty w w' :
  evolves w w' -> batches_nonempty w -> batches_nonempty w'.
Proof.
  unfold batches_nonempty.
  induction 1 as [w|w1 w2 w3 _ IH1 _ IH2|w|w|invocation w|w Hq|w]; intros Hw.
  - exact Hw.
  - auto.
  - exact Hw.
  - exact Hw.
  - now rewrite pushed_sent, pushed_fetched.
  - destruct Hw as [Hs Hf].
    destruct (flushed_fetched w) as [n Hn].
    rewrite flushed_sent, Hn. split.
    + apply Forall_app. split; [exact Hs|].
      constructor; [exact Hq | constructor].
    + apply Forall_app. split; [exact Hf|].
      apply Forall_forall. intros b Hb.
      apply repeat_spec in Hb. subst b. exact Hq.
  - destruct (cancelled_observed w) as [-> ->]. exact Hw.
Qed.

(** ** Collector: construction and runs *)

Lemma new_EmcyTelemetry_self config h :
  self (new_EmcyTelemetry config h) =
  EmcyTelemetry.set_flushTimer (Some (nextHandle h)) (constructor_fields config).
Proof. reflexivity. Qed.

Lemma start_timer_owned config clock uuids network :
  timer_owned (start config clock uuids network).
Proof. reflexivity. Qed.

Lemma start_batches_nonempty config clock uuids network :
  batches_nonempty (start config clock uuids network).
Proof. split; constructor. Qed.

Lemma or_number_nonzero a b : b <> 0 -> or_number a b <> 0.
Proof.
  intros Hb. unfold or_number. destruct a as [n|]; [|exact Hb].
  destruct (Z.eqb_spec n 0); [exact Hb | assumption].
Qed.

Lemma invoke_preserves (P : World -> Prop) :
  (forall w w', evolves w w' -> P w -> P w') ->
  (forall name version w, P w -> P (exec (setServerInfo name version) w)) ->
  forall c w, P w -> P (exec (invoke c) w).
Proof.
  intros Hev Hset c w Hw.
  pose proof (invoke_evolves c w) as Hc.
  destruct c; try (eapply Hev; [exact Hc | exact Hw]).
  now apply Hset.
Qed.

Lemma invoke_settings c w : settings (self (exec (invoke c) w)) = settings (self w).
Proof.
  apply (invoke_preserves (fun w' => settings (self w') = settings (self w))).
  - intros w1 w2 Hev Hw1. destruct (evolves_fields _ _ Hev) as [_ Hs]. congruence.
  - intros name version w1 Hw1. exact Hw1.
  - reflexivity.
Qed.

Lemma run_settings calls w : settings (self (run calls w)) = settings (self w).
Proof.
  apply (run_invariant (fun w' => settings (self w') = settings (self w))).
  - intros c w1 Hw1. now rewrite invoke_settings.
  - reflexivity.
Qed.

Lemma settings_batchSize o o' :
  settings o = settings o' -> EmcyTelemetry.batchSize o = EmcyTelemetry.batchSize o'.
Proof. unfold settings. now intros [= _ _ _ -> _ _]. Qed.

Lemma run_batchSize_nonzero config clock uuids network calls :
  EmcyTelemetry.batchSize (self (run calls (start config clock uuids network))) <> 0.
Proof.
  rewrite (settings_batchSize _ _ (run_settings calls _)).
  cbn [start new_EmcyTelemetry_self]. unfold start.
  rewrite new_EmcyTelemetry_self.
  cbn [EmcyTelemetry.set_flushTimer EmcyTelemetry.batchSize constructor_fields].
  now apply or_number_nonzero.
Qed.

Lemma run_timer_owned config clock uuids network calls :
  timer_owned (run calls (start config clock uuids network)).
Proof.
  apply run_invariant; [|apply start_timer_owned].
  apply invoke_preserves.
  - apply evolves_timer_owned.
  - intros name version w Hw. exact Hw.
Qed.

Lemma run_app calls calls' w : run (calls ++ calls') w = run calls' (run calls w).
Proof. unfold run. apply fold_left_app. Qed.

(** ** Collector: the size trigger *)

Lemma log_below invocation w :
  Z.of_nat (List.length (EmcyTelemetry.queue (self w))) + 1
    < EmcyTelemetry.batchSize (self w) ->
  exec (log invocation) w = pushed invocation w.
Proof.
  intros Hlt. unfold exec. rewrite log_spec. cbn [snd].
  rewrite length_app. cbn [List.length].
  destruct (Z.leb_spec (EmcyTelemetry.batchSize (self w))
              (Z.of_nat (List.length (EmcyTelemetry.queue (self w)) + 1))); [lia|].
  reflexivity.
Qed.

Lemma log_reaching invocation w :
  Z.of_nat (List.length (EmcyTelemetry.queue (self w))) + 1
    = EmcyTelemetry.batchSize (self w) ->
  exec (log invocation) w = flushed (pushed invocation w).
Proof.
  intros Heq. unfold exec. rewrite log_spec. cbn [snd].
  rewrite length_app. cbn [List.length].
  destruct (Z.leb_spec (EmcyTelemetry.batchSize (self w))
              (Z.of_nat (List.length (EmcyTelemetry.queue (self w)) + 1))); [|lia].
  reflexivity.
Qed.


(** Logging below the threshold only appends. *)
Lemma logs_below records : forall w,
  Z.of_nat (List.length (EmcyTelemetry.queue (self w)) + List.length records)
    < EmcyTelemetry.batchSize (self w) ->
  let w' := run (map CallLog records) w in
  EmcyTelemetry.queue (self w') = EmcyTelemetry.queue (self w) ++ records /\
  sent (effects (host w')) = sent (effects (host w)) /\
  fetched (effects (host w')) = fetched (effects (host w)) /\
  EmcyTelemetry.batchSize (self w') = EmcyTelemetry.batchSize (self w).
Proof.
  induction records as [|x records IH]; intros w Hlt; cbn zeta.
  - cbn [map run fold_left]. now rewrite app_nil_r.
  - change (run (map CallLog (x :: records)) w)
      with (run (map CallLog records) (exec (log x) w)).
    cbn [List.length] in Hlt.
    rewrite log_below by lia.
    assert (Hq1 : EmcyTelemetry.queue (self (pushed x w))
                  = EmcyTelemetry.queue (self w) ++ [x]) by reflexivity.
    assert (Hb1 : EmcyTelemetry.batchSize (self (pushed x w))
                  = EmcyTelemetry.batchSize (self w)) by reflexivity.
    destruct (IH (pushed x w)) as (Hq & Hs & Hf & Hb).
    { rewrite Hq1, Hb1, length_app. cbn [List.length]. lia. }
    rewrite Hq, Hs, Hf, Hb, Hq1, Hb1, pushed_sent, pushed_fetched.
    now rewrite <- app_assoc.
Qed.

(** C4: from an empty queue, fewer than [batchSize] logged records stay
    in the queue in logging order and nothing is sent; exactly
    [batchSize] logged records cause exactly one flush, whose batch holds
    those records in logging order, and leave the queue empty. *)
Theorem log_order_and_size_flush (config : EmcyConfig.t) (clock : nat -> Z)
    (uuids : nat -> string) (network : nat -> FetchResult) (calls : list Call)
    (records : list ToolInvocation.t) :
  let w := run calls (start config clock uuids network) in
  let w' := run (map CallLog records) w in
  EmcyTelemetry.queue (self w) = [] ->
  (Z.of_nat (List.length records) < EmcyTelemetry.batchSize (self w) ->
     EmcyTelemetry.queue (self w') = records /\
     sent (effects (host w')) = sent (effects (host w)) /\
     fetched (effects (host w')) = fetched (effects (host w))) /\
  (Z.of_nat (List.length records) = EmcyTelemetry.batchSize (self w) ->
     EmcyTelemetry.queue (self w') = [] /\
     exists batch,
       sent (effects (host w')) = sent (effects (host w)) ++ [batch] /\
       TelemetryBatch.invocations batch = records).
Proof.
  intros w w' Hempty. split.
  - intros Hlt.
    destruct (logs_below records w) as (Hq & Hs & Hf & _).
    { rewrite Hempty. cbn [List.length]. lia. }
    fold w' in Hq, Hs, Hf. rewrite Hq, Hempty. auto.
  - intros Heq.
    pose proof (run_batchSize_nonzero config clock uuids network calls) as Hnz.
    fold w in Hnz.
    destruct (exists_last (l := records)) as (init & x & ->).
    { intros ->. cbn [List.length] in Heq. lia. }
    rewrite length_app in Heq. cbn [List.length] in Heq.
    subst w'. rewrite map_app, run_app. cbn [map].
    change (run [CallLog x] (run (map CallLog init) w))
      with (exec (log x) (run (map CallLog init) w)).
    destruct (logs_below init w) as (Hq & Hs & _ & Hb).
    { rewrite Hempty. cbn [List.length]. lia. }
    cbn zeta in Hq, Hs, Hb. rewrite Hempty in Hq. cbn [app] in Hq.
    rewrite log_reaching by (rewrite Hq, Hb; lia).
    rewrite flushed_self, flushed_sent, pushed_sent, Hs. split; [reflexivity|].
    eexists. split; [reflexivity|].
    cbn [flush_batch TelemetryBatch.invocations pushed self
         EmcyTelemetry.set_queue EmcyTelemetry.queue].
    now rewrite Hq.
Qed.

(** ** Collector: empty flushes *)

Lemma run_batches_nonempty config clock uuids network calls :
  batches_nonempty (run calls (start config clock uuids network)).
Proof.
  apply run_invariant; [|apply start_batches_nonempty].
  apply invoke_preserves.
  - apply evolves_batches_nonempty.
  - intros name version w Hw. exact Hw.
Qed.

(** C8: [flush] on an empty queue changes nothing and performs nothing;
    and in every run of a collector every batch handed to [send], and
    every batch put on the wire, has at least one record. *)
Theorem flush_empty_noop_batches_nonempty :
  (forall w, EmcyTelemetry.queue (self w) = [] -> flush w = (Normal tt, w)) /\
  (forall config clock uuids network calls,
     batches_nonempty (run calls (start config clock uuids network))).
Proof.
  split.
  - intros w Hq. rewrite flush_spec, Hq. reflexivity.
  - apply run_batches_nonempty.
Qed.

(** ** Collector: the timer *)

Lemma flush_queue_empty w : EmcyTelemetry.queue (self (exec flush w)) = [].
Proof.
  unfold exec. rewrite flush_spec. cbn [snd].
  destruct (EmcyTelemetry.queue (self w)) as [|x q] eqn:Hq; cbn [List.length Nat.eqb].
  - exact Hq.
  - now rewrite flushed_self.
Qed.







(** ** Collector: server metadata and configuration *)

Lemma invoke_metadata c w :
  EmcyTelemetry.metadata (self (exec (invoke c) w)) =
  match c with
  | CallSetServerInfo name version =>
      ServerMetadata.mk (Some name) (Some version)
        (ServerMetadata.mcpServerId (EmcyTelemetry.metadata (self w)))
  | _ => EmcyTelemetry.metadata (self w)
  end.
Proof.
  pose proof (invoke_evolves c w) as Hc.
  destruct c; try (now destruct (evolves_fields _ _ Hc)).
  reflexivity.
Qed.

(** C9, as the code has it: at construction the metadata has no server
    name and no server version, and the constructor itself writes
    [mcpServerId] into it when the configuration gives a non-empty one;
    from then on it changes through [setServerInfo] only, which
    overwrites name and version, the last write winning, and clears
    nothing; every other call leaves it as it is. *)
Theorem metadata_writers :
  (forall config h,
     EmcyTelemetry.metadata (self (new_EmcyTelemetry config h)) =
     ServerMetadata.mk None None
       (if truthy_string (EmcyConfig.mcpServerId config)
        then EmcyConfig.mcpServerId config else None)) /\
  (forall c w,
     EmcyTelemetry.metadata (self (exec (invoke c) w)) =
     match c with
     | CallSetServerInfo name version =>
         ServerMetadata.mk (Some name) (Some version)
           (ServerMetadata.mcpServerId (EmcyTelemetry.metadata (self w)))
     | _ => EmcyTelemetry.metadata (self w)
     end) /\
  (forall toolName outcome options w,
     EmcyTelemetry.metadata (self (exec (trace toolName (settled outcome) options) w)) =
     EmcyTelemetry.metadata (self w)) /\
  (forall name version name' version' w,
     EmcyTelemetry.metadata
       (self (exec (setServerInfo name' version')
                   (exec (setServerInfo name version) w))) =
     EmcyTelemetry.metadata (self (exec (setServerInfo name' version') w))).
Proof.
  repeat split.
  - intros config h. rewrite new_EmcyTelemetry_self.
    cbn [EmcyTelemetry.set_flushTimer EmcyTelemetry.metadata constructor_fields].
    now destruct (truthy_string (EmcyConfig.mcpServerId config)).
  - apply invoke_metadata.
  - intros toolName outcome options w.
    now destruct (evolves_fields _ _ (trace_evolves toolName outcome options w)).
Qed.

(** C9 as stated fails: constructed with the server id ["server-123"],
    the collector's metadata is not empty, the constructor wrote to it. *)
Lemma constructor_writes_metadata :
  EmcyTelemetry.metadata
    (self (new_EmcyTelemetry (test_config (Some "server-123"%string) None)
             (test_host (mock_fetch [] (status_response 200 "OK")))))
  <> ServerMetadata.empty.
Proof. discriminate. Qed.

(** C10: a batch size or a flush interval that is absent or zero is
    replaced by the default, 10 and 5000 ms; no configuration yields a
    collector whose batch size or flush interval is zero. *)
Theorem constructor_falsy_defaults :
  (forall apiKey endpoint mcpServerId flushInterval debug h,
     EmcyTelemetry.batchSize
       (self (new_EmcyTelemetry
                (EmcyConfig.mk apiKey endpoint mcpServerId (Some 0) flushInterval debug) h))
     = 10 /\
     EmcyTelemetry.batchSize
       (self (new_EmcyTelemetry
                (EmcyConfig.mk apiKey endpoint mcpServerId None flushInterval debug) h))
     = 10) /\
  (forall apiKey endpoint mcpServerId batchSize debug h,
     EmcyTelemetry.flushInterval
       (self (new_EmcyTelemetry
                (EmcyConfig.mk apiKey endpoint mcpServerId batchSize (Some 0) debug) h))
     = 5000 /\
     EmcyTelemetry.flushInterval
       (self (new_EmcyTelemetry
                (EmcyConfig.mk apiKey endpoint mcpServerId batchSize None debug) h))
     = 5000) /\
  (forall config h,
     (EmcyTelemetry.batchSize (self (new_EmcyTelemetry config h)) =? 0) = false /\
     (EmcyTelemetry.flushInterval (self (new_EmcyTelemetry config h)) =? 0) = false /\
     In (SetInterval (nextHandle h)
           (EmcyTelemetry.flushInterval (self (new_EmcyTelemetry config h))))
        (effects (host (new_EmcyTelemetry config h)))).
Proof.
  split; [|split].
  - intros. split; reflexivity.
  - intros. split; reflexivity.
  - intros config h. rewrite new_EmcyTelemetry_self.
    cbn [EmcyTelemetry.set_flushTimer EmcyTelemetry.batchSize
         EmcyTelemetry.flushInterval constructor_fields].
    split; [|split].
    + apply Z.eqb_neq. now apply or_number_nonzero.
    + apply Z.eqb_neq. now apply or_number_nonzero.
    + cbn. apply in_or_app. left. apply in_or_app. left.
      apply in_or_app. left. apply in_or_app. left.
      apply in_or_app. right. now left.
Qed.

(** * Instances *)

(** The schedule at work: 500, 503, then 200 is delivered at the third
    attempt; 500 for ever is given up after the third. *)
Lemma send_bounded_backoff_witness :
  send test_transport test_batch
       (test_host (mock_fetch [server_error; unavailable] ok_response)) =
  (Normal true,
   host_after (test_host (mock_fetch [server_error; unavailable] ok_response)) 3
     (retries test_transport test_batch 2
      ++ request test_transport test_batch :: sent_line test_transport test_batch))
  /\
  send test_transport test_batch (test_host (mock_fetch [] server_error)) =
  (Normal false,
   host_after (test_host (mock_fetch [] server_error)) 3
     (retries test_transport test_batch 2 ++
      [request test_transport test_batch;
       failed_line (lastError_of server_error)])).
Proof.
  split.
  - apply (proj1 (proj2 (send_bounded_backoff test_transport test_batch
             (test_host (mock_fetch [server_error; unavailable] ok_response))))
             2%nat).
    + lia.
    + intros [|[|j]] Hj; [reflexivity | reflexivity | lia].
    + reflexivity.
  - apply (proj1 (proj2 (proj2 (send_bounded_backoff test_transport test_batch
             (test_host (mock_fetch [] server_error)))))).
    intros [|[|[|j]]] Hj; [reflexivity | reflexivity | reflexivity | lia].
Defined.

(** A 401 at the first attempt, and a 401 after one 500. *)
Lemma send_client_error_no_retry_witness :
  (exists line,
     send test_transport test_batch (test_host (mock_fetch [] unauthorized)) =
     (Normal false,
      host_after (test_host (mock_fetch [] unauthorized)) 1
        [request test_transport test_batch; ConsoleError line]))
  /\
  send test_transport test_batch
       (test_host (mock_fetch [server_error] unauthorized)) =
  (Normal false,
   host_after (test_host (mock_fetch [server_error] unauthorized)) 2
     (retries test_transport test_batch 1
      ++ request test_transport test_batch :: client_error_line unauthorized)).
Proof.
  split.
  - apply (proj2 (send_client_error_no_retry test_transport test_batch
             (test_host (mock_fetch [] unauthorized))) "Unauthorized"%string).
    intros i. destruct i as [|[|i]]; reflexivity.
  - apply (proj1 (send_client_error_no_retry test_transport test_batch
             (test_host (mock_fetch [server_error] unauthorized))) 1%nat).
    + lia.
    + intros [|j] Hj; [split; reflexivity | lia].
    + reflexivity.
Defined.

(** Batch size 2: one record stays queued, two are flushed together. *)
Lemma log_order_and_size_flush_witness :
  let w := start (test_config None (Some 2)) test_clock test_uuids
                 (mock_fetch [] ok_response) in
  let r1 := test_invocation "inv-1" "tool1" 100 in
  let r2 := test_invocation "inv-2" "tool2" 200 in
  EmcyTelemetry.queue (self (run (map CallLog [r1]) w)) = [r1] /\
  EmcyTelemetry.queue (self (run (map CallLog [r1; r2]) w)) = [].
Proof.
  intros w r1 r2. split.
  - apply (proj1 (log_order_and_size_flush (test_config None (Some 2)) test_clock
             test_uuids (mock_fetch [] ok_response) [] [r1] eq_refl)).
    reflexivity.
  - apply (proj2 (log_order_and_size_flush (test_config None (Some 2)) test_clock
             test_uuids (mock_fetch [] ok_response) [] [r1; r2] eq_refl)).
    reflexivity.
Defined.

(** A flush right after construction. *)
Lemma flush_empty_noop_batches_nonempty_witness :
  let w := start (test_config None None) test_clock test_uuids
                 (mock_fetch [] ok_response) in
  EmcyTelemetry.queue (self w) = [] /\ flush w = (Normal tt, w).
Proof.
  intros w. split; [reflexivity|].
  apply (proj1 flush_empty_noop_batches_nonempty w). reflexivity.
Defined.


(** * The scenarios of the test suite, run on the model *)

Example test_5xx_retries_then_gives_up :
  let r := send test_transport test_batch (test_host (mock_fetch [] server_error)) in
  fst r = Normal false /\
  List.length (fetched (effects (snd r))) = 3%nat /\
  delays (effects (snd r)) = [1000; 2000].
Proof. repeat split. Qed.

Example test_retry_then_succeed :
  let r := send test_transport test_batch
                (test_host (mock_fetch [server_error; unavailable] ok_response)) in
  fst r = Normal true /\
  List.length (fetched (effects (snd r))) = 3%nat /\
  delays (effects (snd r)) = [1000; 2000].
Proof. repeat split. Qed.

Example test_4xx_no_retry :
  let r := send test_transport test_batch (test_host (mock_fetch [] unauthorized)) in
  fst r = Normal false /\
  List.length (fetched (effects (snd r))) = 1%nat /\
  delays (effects (snd r)) = [].
Proof. repeat split. Qed.

Example test_network_error_then_success :
  let r := send test_transport test_batch
                (test_host (mock_fetch [Rejected (new_Error "Network error")]
                                       ok_response)) in
  fst r = Normal true /\
  List.length (fetched (effects (snd r))) = 2%nat /\
  delays (effects (snd r)) = [1000].
Proof. repeat split. Qed.

Example test_auto_flush_at_batch_size :
  let w := start (test_config None (Some 2)) test_clock test_uuids
                 (mock_fetch [] ok_response) in
  let r1 := test_invocation "inv-1" "tool1" 100 in
  let r2 := test_invocation "inv-2" "tool2" 200 in
  map TelemetryBatch.invocations
      (fetched (effects (host (run [CallLog r1; CallLog r2] w)))) = [[r1; r2]].
Proof. reflexivity. Qed.

Example test_trace_passthrough :
  let w := start (test_config None None) test_clock test_uuids
                 (mock_fetch [] ok_response) in
  let r := trace "x" (settled (Normal (VNumber 42))) None w in
  fst r = Normal (VNumber 42) /\
  map ToolInvocation.output (EmcyTelemetry.queue (self (snd r))) =
  [Some (Output.mk None (VNumber 42))].
Proof. split; reflexivity. Qed.

Example test_trace_error_passthrough :
  let w := start (test_config None None) test_clock test_uuids
                 (mock_fetch [] ok_response) in
  let r := trace "x" (settled (Thrown (new_Error "boom"))) None w in
  fst r = Thrown (new_Error "boom") /\
  map ToolInvocation.error (EmcyTelemetry.queue (self (snd r))) =
  [Some (ErrorInfo.mk (VString "boom") None None)].
Proof. split; reflexivity. Qed.

Example test_shutdown_stops_timer :
  let w := start (test_config None None) test_clock test_uuids
                 (mock_fetch [] ok_response) in
  fetched (effects (host
    (run [CallShutdown; CallLog (test_invocation "inv-1" "tool1" 100);
          IntervalElapsed 0%nat; IntervalElapsed 0%nat] w))) = [].
Proof. reflexivity. Qed.

Example test_periodic_flush :
  let w := start (test_config None (Some 100)) test_clock test_uuids
                 (mock_fetch [] ok_response) in
  List.length (fetched (effects (host
    (run [CallLog (test_invocation "inv-1" "tool1" 100); IntervalElapsed 0%nat] w))))
  = 1%nat.
Proof. reflexivity. Qed.

Example test_server_info_in_traced_records :
  let w := start (test_config None None) test_clock test_uuids
                 (mock_fetch [] ok_response) in
  let w' := run [CallSetServerInfo "test-server" "1.0.0";
                 CallTrace "testTool" (Normal (VString "result")) None] w in
  map (fun i => option_map Metadata.serverName (ToolInvocation.metadata i))
      (EmcyTelemetry.queue (self w')) = [Some (Some "test-server"%string)].
Proof. reflexivity. Qed.

(** * Further properties of the code *)

(** ** Transport *)

Lemma verdict_cases r :
  (verdict r = Delivered /\ indicates_success r = true /\ client_error r = false) \/
  (verdict r = ClientError /\ indicates_success r = false /\ client_error r = true) \/
  (verdict r = Retryable /\ indicates_success r = false /\ client_error r = false).
Proof.
  destruct (indicates_success r) eqn:Hs.
  - left. split; [now apply verdict_success|]. split; [reflexivity|].
    destruct r as [resp|]; [|discriminate]. cbn in *. unfold Response.ok in Hs.
    apply andb_true_iff in Hs as [_ H2]. apply Z.leb_le in H2.
    apply andb_false_iff. left. apply Z.leb_gt. lia.
  - destruct (client_error r) eqn:Hc.
    + right. left. split; [now apply verdict_client_error|]. now split.
    + right. right. split; [now apply verdict_retryable|]. now split.
Qed.

(** X1: [send] never throws; it returns [true] exactly when one of the
    three first answers is a success and every answer before it was
    neither a success nor a client error. *)
Theorem send_delivers_iff (this : TelemetryTransport.t)
    (batch : TelemetryBatch.t) (h : Host) :
  let r := fun k => network h (fetchCalls h + k)%nat in
  (exists delivered, fst (send this batch h) = Normal delivered) /\
  (fst (send this batch h) = Normal true <->
   exists k, (k < 3)%nat /\ indicates_success (r k) = true /\
     forall j, (j < k)%nat ->
       indicates_success (r j) = false /\ client_error (r j) = false).
Proof.
  intros r. rewrite send_transcript. fold r. unfold transcript.
  destruct (verdict_cases (r 0%nat)) as [(-> & S0 & C0)|[(-> & S0 & C0)|(-> & S0 & C0)]].
  - split; [now eexists|]. split; [|reflexivity].
    intros _. exists 0%nat. repeat split; try lia. exact S0.
  - split; [now eexists|]. split; [discriminate|].
    intros (k & Hk & Hs & Hbefore). exfalso.
    destruct k as [|k]; [congruence|].
    destruct (Hbefore 0%nat) as [_ H]; [lia|congruence].
  - destruct (verdict_cases (r 1%nat)) as [(-> & S1 & C1)|[(-> & S1 & C1)|(-> & S1 & C1)]].
    + split; [now eexists|]. split; [|reflexivity].
      intros _. exists 1%nat. split; [lia|]. split; [exact S1|].
      intros j Hj. assert (j = 0%nat) as -> by lia. now split.
    + split; [now eexists|]. split; [discriminate|].
      intros (k & Hk & Hs & Hbefore). exfalso.
      destruct k as [|[|k]]; [congruence|congruence|].
      destruct (Hbefore 1%nat) as [_ H]; [lia|congruence].
    + destruct (verdict_cases (r 2%nat))
        as [(-> & S2 & C2)|[(-> & S2 & C2)|(-> & S2 & C2)]].
      * split; [now eexists|]. split; [|reflexivity].
        intros _. exists 2%nat. split; [lia|]. split; [exact S2|].
        intros j Hj. destruct j as [|[|j]]; [now split|now split|lia].
      * split; [now eexists|]. split; [discriminate|].
        intros (k & Hk & Hs & Hbefore). exfalso.
        destruct k as [|[|[|k]]]; [congruence|congruence|congruence|lia].
      * split; [now eexists|]. split; [discriminate|].
        intros (k & Hk & Hs & Hbefore). exfalso.
        destruct k as [|[|[|k]]]; [congruence|congruence|congruence|lia].
Qed.

(** X2: an answer whose status is neither in 200-299 nor in 400-499, a
    304 for one, is retried like a server error: against an endpoint that
    always gives it, [send] makes three requests with the two waits, then
    reports the last status and returns [false]. *)
Theorem send_retries_other_status (this : TelemetryTransport.t)
    (batch : TelemetryBatch.t) (h : Host) (status : Z) (statusText : string) :
  status < 200 \/ 300 <= status < 400 \/ 500 <= status ->
  (forall i, network h i = Responded (Response.mk status statusText)) ->
  send this batch h =
  (Normal false,
   host_after h 3
     (retries this batch 2 ++
      [request this batch;
       failed_line (new_Error ("HTTP " ++ string_of_Z status ++ ": " ++ statusText)%string)])).
Proof.
  intros Hrange Hall.
  assert (Hv : verdict (Responded (Response.mk status statusText)) = Retryable).
  { apply verdict_retryable; cbn; unfold Response.ok; cbn.
    - apply andb_false_iff.
      destruct (Z.leb_spec 200 status); [|now left].
      right. apply Z.leb_gt. lia.
    - apply andb_false_iff.
      destruct (Z.leb_spec 400 status); [|now left].
      right. apply Z.leb_gt. lia. }
  rewrite send_transcript. unfold transcript.
  rewrite !Hall, Hv. reflexivity.
Qed.

Lemma consoles_sent_line this batch :
  List.length (consoles (sent_line this batch))
  = if TelemetryTransport.debug this then 1%nat else 0%nat.
Proof. unfold sent_line. now destruct (TelemetryTransport.debug this). Qed.

(** X4: what [send] writes to the console: nothing when the batch is
    delivered and [debug] is off, one line when it is delivered and
    [debug] is on, and one line whenever it is not delivered, with
    [debug] on or off. *)
Theorem send_console_lines (this : TelemetryTransport.t)
    (batch : TelemetryBatch.t) (h : Host) :
  exists delivered n es,
    send this batch h = (Normal delivered, host_after h n es) /\
    List.length (consoles es)
    = if delivered then (if TelemetryTransport.debug this then 1%nat else 0%nat)
      else 1%nat.
Proof.
  rewrite send_transcript.
  set (r := fun k => network h (fetchCalls h + k)%nat).
  unfold transcript.
  destruct (verdict (r 0%nat)) eqn:V0;
    [| |destruct (verdict (r 1%nat)) eqn:V1;
        [| |destruct (verdict (r 2%nat)) eqn:V2]];
    do 3 eexists; (split; [reflexivity|]);
    cbn [consoles request]; rewrite ?consoles_sent_line; try reflexivity.
  - destruct (r 0%nat); [reflexivity|discriminate].
  - destruct (r 1%nat); [reflexivity|discriminate].
  - destruct (r 2%nat); [reflexivity|discriminate].
Qed.

Lemma get_message_lastError_of r :
  get "message" (lastError_of r) = VString (failure_message r).
Proof.
  destruct r as [resp|reason]; [reflexivity|].
  destruct reason; reflexivity.
Qed.

(** X5: when all three attempts fail retryably, the one console line of
    [send] carries the message of the last failure as a string: the
    status line of a response, the message of a thrown [Error], and
    [String(reason)] for any other thrown value. *)
Theorem send_failure_report (this : TelemetryTransport.t)
    (batch : TelemetryBatch.t) (h : Host) :
  let r := fun k => network h (fetchCalls h + k)%nat in
  (forall j, (j < 3)%nat ->
     indicates_success (r j) = false /\ client_error (r j) = false) ->
  exists es,
    send this batch h = (Normal false, host_after h 3 es) /\
    consoles es =
    [[VString "[emcy] Failed to send telemetry after 3 attempts:";
      VString (failure_message (r 2%nat))]].
Proof.
  intros r Hfail.
  rewrite send_transcript. fold r. unfold transcript.
  rewrite (verdict_retryable (r 0%nat)) by (apply Hfail; lia).
  rewrite (verdict_retryable (r 1%nat)) by (apply Hfail; lia).
  rewrite (verdict_retryable (r 2%nat)) by (apply Hfail; lia).
  eexists. split; [reflexivity|].
  cbn [consoles request failed_line]. now rewrite get_message_lastError_of.
Qed.

(** ** Collector: the records of traced operations *)

Lemma all_records_run_logs records : forall w,
  all_records (run (map CallLog records) w) = all_records w ++ records.
Proof.
  induction records as [|x records IH]; intros w.
  - now rewrite app_nil_r.
  - change (run (map CallLog (x :: records)) w)
      with (run (map CallLog records) (exec (log x) w)).
    now rewrite IH, all_records_log, <- app_assoc.
Qed.

(** The [try] statement of a trace whose operation has settled adds the
    record of the trace after all the others, or nothing. *)
Lemma all_records_trace_completion invocationId startTime toolName outcome options w :
  all_records (exec (trace_completion invocationId startTime toolName
                                      (settled outcome) options) w) =
  all_records w ++ settle_records invocationId startTime toolName outcome options w.
Proof.
  unfold exec. rewrite trace_completion_spec. cbn [snd fst settled].
  now rewrite all_records_run_logs, all_records_completed.
Qed.

Lemma all_records_trace toolName outcome options w :
  all_records (exec (trace toolName (settled outcome) options) w) =
  all_records w ++ traced_records toolName outcome options w.
Proof.
  unfold exec. rewrite trace_spec. cbn [snd fst settled].
  now rewrite all_records_run_logs, all_records_completed, all_records_entered.
Qed.

Lemma all_records_flush w : all_records (exec flush w) = all_records w.
Proof.
  unfold exec. rewrite flush_spec. cbn [snd].
  destruct (List.length (EmcyTelemetry.queue (self w)) =? 0)%nat; [reflexivity|].
  unfold all_records. rewrite flushed_sent, flushed_self, flat_map_app.
  cbn [flat_map flush_batch TelemetryBatch.invocations EmcyTelemetry.set_queue
       EmcyTelemetry.queue].
  now rewrite !app_nil_r.
Qed.

Lemma all_records_cancelled w : all_records (cancelled w) = all_records w.
Proof.
  unfold all_records. destruct (cancelled_observed w) as [-> _].
  unfold cancelled. now destruct (EmcyTelemetry.flushTimer (self w)).
Qed.

Lemma all_records_shutdown w : all_records (exec shutdown w) = all_records w.
Proof.
  unfold exec. rewrite shutdown_spec.
  change (snd (flush (cancelled w))) with (exec flush (cancelled w)).
  now rewrite all_records_flush, all_records_cancelled.
Qed.

(** What each call does to the records of the collector. *)
Lemma all_records_invoke c w :
  all_records (exec (invoke c) w) =
  all_records w ++
  match c with
  | CallLog invocation => [invocation]
  | CallTrace toolName outcome options => traced_records toolName outcome options w
  | TraceSettles invocationId startTime toolName outcome options =>
      settle_records invocationId startTime toolName outcome options w
  | _ => []
  end.
Proof.
  destruct c; cbn [invoke]; rewrite ?app_nil_r.
  - reflexivity.
  - rewrite detach_exec. apply all_records_trace.
  - apply all_records_log.
  - apply all_records_flush.
  - apply all_records_shutdown.
  - rewrite interval_elapsed_exec.
    destruct (existsb _ _); [apply all_records_flush | reflexivity].
  - rewrite process_emit_exec.
    destruct (existsb _ _); [apply all_records_shutdown | reflexivity].
  - apply all_records_entered.
  - rewrite detach_exec. apply all_records_trace_completion.
Qed.

Lemma run_records (calls : list Call) : forall w : World,
  exists added,
    all_records (run calls w) = all_records w ++ added /\
    Forall2 record_of_call (filter is_recording calls) added.
Proof.
  induction calls as [|c calls IH]; intros w.
  - exists []. split; [now rewrite app_nil_r | constructor].
  - change (run (c :: calls) w) with (run calls (exec (invoke c) w)).
    destruct (IH (exec (invoke c) w)) as (added & Heq & Hall).
    rewrite Heq, all_records_invoke, <- app_assoc.
    destruct c; cbn [filter is_recording]; cbn [app];
      try (exists added; split; [reflexivity | exact Hall]).
    + unfold traced_records. destruct (trace_logs outcome).
      * eexists. split; [reflexivity|]. constructor; [|exact Hall].
        cbn. now repeat split.
      * exists added. split; [reflexivity | exact Hall].
    + exists (invocation :: added).
      split; [reflexivity|]. constructor; [reflexivity | exact Hall].
    + unfold settle_records. destruct (trace_logs outcome).
      * eexists. split; [reflexivity|]. constructor; [|exact Hall].
        cbn. now repeat split.
      * exists added. split; [reflexivity | exact Hall].
Qed.

(** X7: no record is lost, doubled or reordered.  Whatever calls and
    host events follow one another, the records handed to the transport
    followed by the records still queued are those there were before,
    followed by the records logged since, in the order in which they
    were logged: the record given to each [log], when it is called, and
    the record of each [trace], with its tool name, outcome and input,
    when its operation settles.  Traces that overlap are thus recorded
    in the order in which they settle, and a trace whose operation
    throws a value that cannot be converted adds no record. *)
Theorem records_conserved (calls : list Call) (w : World) :
  (exists added,
     all_records (run calls w) = all_records w ++ added /\
     Forall2 record_of_call (filter is_recording calls) added) /\
  List.length (all_records (run calls w)) =
  (List.length (all_records w) + List.length (filter is_recording calls))%nat.
Proof.
  destruct (run_records calls w) as (added & Heq & Hall).
  split.
  - exists added. now split.
  - rewrite Heq, length_app. f_equal. symmetry.
    exact (Forall2_length Hall).
Qed.

Lemma set_queue_same o : EmcyTelemetry.set_queue (EmcyTelemetry.queue o) o = o.
Proof. now destruct o. Qed.

Lemma flush_self w : self (exec flush w) = EmcyTelemetry.set_queue [] (self w).
Proof.
  unfold exec. rewrite flush_spec. cbn [snd].
  destruct (EmcyTelemetry.queue (self w)) as [|x q] eqn:Hq; cbn [List.length Nat.eqb].
  - rewrite <- Hq. now rewrite set_queue_same.
  - apply flushed_self.
Qed.

(** X8: [flush] always settles normally and always leaves the queue
    empty, the rest of the collector untouched, whatever the endpoint
    answers: the records of a batch that could not be delivered are not
    put back, they stay handed over. *)
Theorem flush_drains_whatever_the_answer (w : World) :
  fst (flush w) = Normal tt /\
  self (exec flush w) = EmcyTelemetry.set_queue [] (self w) /\
  sent (effects (host (exec flush w))) =
  sent (effects (host w)) ++
  match EmcyTelemetry.queue (self w) with
  | [] => []
  | _ :: _ => [flush_batch w]
  end.
Proof.
  unfold exec. rewrite flush_spec. cbn [fst snd].
  split; [reflexivity|].
  destruct (EmcyTelemetry.queue (self w)) as [|x q] eqn:Hq; cbn [List.length Nat.eqb].
  - split; [|now rewrite app_nil_r].
    rewrite <- Hq. now rewrite set_queue_same.
  - split; [apply flushed_self | apply flushed_sent].
Qed.

(** X9: [setServerInfo] touches neither the queue nor the host, so the
    records already queued keep the metadata they have; the record a
    [trace] logs after it carries the new name and version, the session
    of the options and the server id of the collector (a trace logs one
    record, or none for a thrown value that cannot be converted); a
    record given to [log] is queued as given, without server metadata. *)
Theorem setServerInfo_marks_traced_records (name version toolName : string)
    (outcome : Completion value) (options : option TraceOptions.t) (w : World) :
  let w1 := exec (setServerInfo name version) w in
  EmcyTelemetry.queue (self w1) = EmcyTelemetry.queue (self w) /\
  host w1 = host w /\
  (exists logged,
     all_records (exec (trace toolName (settled outcome) options) w1) =
     all_records w ++ logged /\
     List.length logged = (if trace_logs outcome then 1 else 0)%nat /\
     Forall (fun invocation =>
       ToolInvocation.metadata invocation =
       Some (Metadata.mk
               (match options with Some o => TraceOptions.sessionId o | None => None end)
               None None (Some name) (Some version)
               (ServerMetadata.mcpServerId (EmcyTelemetry.metadata (self w)))))
       logged) /\
  (forall given, all_records (exec (log given) w1) = all_records w ++ [given]).
Proof.
  intros w1. split; [reflexivity|]. split; [reflexivity|]. split.
  - exists (traced_records toolName outcome options w1).
    split; [rewrite all_records_trace; reflexivity|].
    unfold traced_records. destruct (trace_logs outcome).
    + split; [reflexivity|]. now repeat constructor.
    + split; [reflexivity|]. constructor.
  - intros given. rewrite all_records_log. reflexivity.
Qed.

(** X10: the clock is read three times around a traced operation: before
    it, and twice after it.  The timestamp of the record is the second
    reading, taken at completion; the duration is the third reading
    minus the first, so it is not negative on a clock that never goes
    back.  The clock is read once more when the [log] of the record
    flushes.  Where no record is built, for a thrown value that cannot
    be converted, the three readings are taken all the same. *)
Theorem trace_timing (toolName : string) (outcome : Completion value)
    (options : option TraceOptions.t) (w : World) :
  let n := clockReads (host w) in
  if trace_logs outcome then
    exists invocation,
      all_records (exec (trace toolName (settled outcome) options) w) =
      all_records w ++ [invocation] /\
      ToolInvocation.timestamp invocation = clock (host w) (S n) /\
      ToolInvocation.duration invocation = clock (host w) (S (S n)) - clock (host w) n /\
      clockReads (host (exec (trace toolName (settled outcome) options) w))
      = (n + 3 + (if (List.length (EmcyTelemetry.queue
                        (self (exec (trace toolName (settled outcome) options) w)))
                      =? 0)%nat then 1 else 0))%nat /\
      ((forall a b, (a <= b)%nat -> clock (host w) a <= clock (host w) b) ->
       0 <= ToolInvocation.duration invocation)
  else
    all_records (exec (trace toolName (settled outcome) options) w) = all_records w /\
    clockReads (host (exec (trace toolName (settled outcome) options) w)) = (n + 3)%nat.
Proof.
  intros n. destruct (trace_logs outcome) eqn:Hlogs.
  - exists (traced_record toolName outcome options w).
    split.
    { rewrite all_records_trace. unfold traced_records. now rewrite Hlogs. }
    split; [reflexivity|]. split; [reflexivity|]. split.
    + rewrite trace_exec_logged by exact Hlogs. cbn [settled fst snd].
      unfold exec. rewrite log_spec. cbn [snd].
      destruct (EmcyTelemetry.batchSize (self (completed (entered w))) <=? _).
      * rewrite flushed_self. cbn [EmcyTelemetry.set_queue EmcyTelemetry.queue
          List.length Nat.eqb].
        unfold flushed. destruct (transcript _ _ _) as [[delivered k] es].
        cbn [host host_after clockReads clock_read pushed].
        destruct (EmcyTelemetry.debug (self (completed (entered w)))); cbn; subst n; lia.
      * cbn [pushed self host EmcyTelemetry.set_queue EmcyTelemetry.queue].
        rewrite length_app. cbn [List.length].
        replace (List.length (EmcyTelemetry.queue (self (completed (entered w)))) + 1
                 =? 0)%nat with false by (symmetry; apply Nat.eqb_neq; lia).
        destruct (EmcyTelemetry.debug (self (completed (entered w)))); cbn; subst n; lia.
    + intros Hmono.
      change (ToolInvocation.duration (traced_record toolName outcome options w))
        with (clock (host w) (S (S (clockReads (host w))))
              - clock (host w) (clockReads (host w))).
      specialize (Hmono (clockReads (host w)) (S (S (clockReads (host w))))).
      lia.
  - split.
    + rewrite all_records_trace. unfold traced_records.
      now rewrite Hlogs, app_nil_r.
    + rewrite trace_exec_unlogged by exact Hlogs. cbn. subst n. lia.
Qed.

(** X6: what [trace] does with a thrown value.  An [Error] is rethrown
    as it is and recorded with its message, code and stack.  A plain
    object is rethrown and recorded as ["[object Object]"], whatever
    [message] or [code] it carries, unless it has a [toString] property
    of its own: then [String] throws, [trace] throws that TypeError
    instead of the object, and nothing is recorded.  Any other value is
    rethrown as it is and recorded with [String(value)] as message and
    neither code nor stack; for a number the message is its digits when
    it is a safe integer. *)
Theorem trace_records_thrown_value (toolName : string)
    (options : option TraceOptions.t) (w : World) (thrown : value) :
  let settles := fst (trace toolName (settled (Thrown thrown)) options w) in
  let after := exec (trace toolName (settled (Thrown thrown)) options) w in
  let records extracted :=
    settles = Thrown thrown /\
    exists invocation,
      all_records after = all_records w ++ [invocation] /\
      ToolInvocation.success invocation = false /\
      ToolInvocation.output invocation = None /\
      extracted (ToolInvocation.error invocation) in
  match thrown with
  | VError msg props =>
      records (fun e => e = Some (ErrorInfo.mk (VString msg)
                                    (optional (get "code" thrown))
                                    (optional (get "stack" thrown))))
  | VObject props =>
      if has_property "toString" thrown then
        settles = Thrown TypeError_to_primitive /\ all_records after = all_records w
      else
        records (fun e => e = Some (ErrorInfo.mk (VString "[object Object]") None None))
  | VNumber n =>
      records (fun e => safe_integer n ->
                        e = Some (ErrorInfo.mk (VString (string_of_Z n)) None None))
  | _ =>
      records (fun e => e = Some (ErrorInfo.mk (VString (String_ thrown)) None None))
  end.
Proof.
  cbn zeta.
  assert (Hrec : trace_logs (Thrown thrown) = true ->
            fst (trace toolName (settled (Thrown thrown)) options w) = Thrown thrown /\
            all_records (exec (trace toolName (settled (Thrown thrown)) options) w)
            = all_records w ++ [traced_record toolName (Thrown thrown) options w]).
  { intros Hlogs. split.
    - rewrite trace_spec. cbn [fst settled]. unfold trace_outcome. now rewrite Hlogs.
    - rewrite all_records_trace. unfold traced_records. now rewrite Hlogs. }
  destruct thrown as [| |b|n|s|props|msg props];
    try (destruct (Hrec eq_refl) as [Hs Ha]; split; [exact Hs|];
         eexists; split; [exact Ha|]; now repeat split).
  destruct (has_property "toString" (VObject props)) eqn:Hts.
  - split.
    + rewrite trace_spec. cbn [fst settled]. unfold trace_outcome.
      cbn [trace_logs instanceof_Error String_throws orb]. now rewrite Hts.
    + rewrite all_records_trace. unfold traced_records.
      cbn [trace_logs instanceof_Error String_throws orb].
      now rewrite Hts, app_nil_r.
  - assert (Hlogs : trace_logs (Thrown (VObject props)) = true).
    { cbn [trace_logs instanceof_Error String_throws orb]. now rewrite Hts. }
    destruct (Hrec Hlogs) as [Hs Ha]. split; [exact Hs|].
    eexists. split; [exact Ha|]. split; [reflexivity|]. split; [reflexivity|].
    cbn [traced_record settle_record ToolInvocation.error].
    unfold extractError, String_call.
    cbn [instanceof_Error String_throws]. now rewrite Hts.
Qed.

(** X16: a result that is an object with a [status] key and no [data]
    key is recorded with that status and an undefined body: its other
    fields do not reach the record. *)
Theorem trace_status_without_data (toolName : string)
    (options : option TraceOptions.t) (w : World)
    (props : list (string * value)) (status : value) :
  lookup "status" props = Some status ->
  lookup "data" props = None ->
  exists invocation,
    all_records (exec (trace toolName (settled (Normal (VObject props))) options) w) =
    all_records w ++ [invocation] /\
    ToolInvocation.success invocation = true /\
    ToolInvocation.output invocation = Some (Output.mk (Some status) VUndefined).
Proof.
  intros Hstatus Hdata.
  exists (traced_record toolName (Normal (VObject props)) options w).
  split; [apply all_records_trace|]. split; [reflexivity|].
  cbn [traced_record settle_record ToolInvocation.output].
  rewrite extractOutput_cases.
  unfold has_property, get. cbn [is_structured_object properties andb].
  now rewrite Hstatus, Hdata.
Qed.

(** ** Collector: what a flush does to the host *)

Lemma transcript_effects this batch r :
  let '(_, _, es) := transcript this batch r in
  Forall (transport_effect this batch) es.
Proof.
  assert (Hs : Forall (transport_effect this batch) (sent_line this batch)).
  { unfold sent_line. destruct (TelemetryTransport.debug this); repeat constructor. }
  assert (Hc : forall x, Forall (transport_effect this batch) (client_error_line x)).
  { intros [resp|reason]; repeat constructor. }
  unfold transcript.
  destruct (verdict (r 0%nat)); [| |destruct (verdict (r 1%nat));
    [| |destruct (verdict (r 2%nat))]];
  repeat (first [exact Hs | apply Hc | constructor]); reflexivity.
Qed.

Lemma flushed_host w :
  exists n es,
    host (flushed w) =
    host_after (clock_read (host w)) n (TransportSend (flush_batch w) :: es) /\
    Forall (transport_effect (EmcyTelemetry.transport (self w)) (flush_batch w)) es.
Proof.
  unfold flushed.
  pose proof (transcript_effects (EmcyTelemetry.transport (self w)) (flush_batch w)
                (fun k => network (host w) (fetchCalls (host w) + k)%nat)) as Hes.
  destruct (transcript _ _ _) as [[delivered n] es].
  now exists n, es.
Qed.

Lemma timer_effects_app es es' :
  timer_effects (es ++ es') = timer_effects es ++ timer_effects es'.
Proof.
  induction es as [|e es IH]; [reflexivity|].
  destruct e; simpl; now rewrite ?IH.
Qed.

Lemma requests_app es es' : requests (es ++ es') = requests es ++ requests es'.
Proof.
  induction es as [|e es IH]; [reflexivity|].
  destruct e; simpl; now rewrite ?IH.
Qed.

Lemma consoles_app es es' : consoles (es ++ es') = consoles es ++ consoles es'.
Proof.
  induction es as [|e es IH]; [reflexivity|].
  destruct e; simpl; now rewrite ?IH.
Qed.

Lemma transport_effects_no_timer this batch es :
  Forall (transport_effect this batch) es -> timer_effects es = [].
Proof.
  induction 1 as [|e es He _ IH]; [reflexivity|].
  destruct e; cbn in *; try contradiction; exact IH.
Qed.

Lemma transport_effects_requests this batch es :
  Forall (transport_effect this batch) es ->
  Forall (fun q => q = (TelemetryTransport.endpoint this,
                        ("Bearer " ++ TelemetryBatch.apiKey batch)%string, batch))
         (requests es).
Proof.
  induction 1 as [|e es He _ IH]; [constructor|].
  destruct e; cbn in *; try contradiction; try exact IH.
  constructor; [|exact IH]. unfold request in He. now injection He as -> -> ->.
Qed.

(** The elementary changes keep the inputs of the host and its
    listeners. *)
Lemma evolves_host_static w w' :
  evolves w w' ->
  network (host w') = network (host w) /\
  clock (host w') = clock (host w) /\
  uuids (host w') = uuids (host w) /\
  listeners (host w') = listeners (host w).
Proof.
  induction 1 as [w|w1 w2 w3 _ IH1 _ IH2|w|w|invocation w|w Hq|w].
  - now repeat split.
  - destruct IH1 as (? & ? & ? & ?), IH2 as (? & ? & ? & ?).
    repeat split; congruence.
  - now repeat split.
  - now repeat split.
  - unfold pushed. cbn [host].
    destruct (EmcyTelemetry.debug (self w)); now repeat split.
  - destruct (flushed_host w) as (n & es & -> & _). now repeat split.
  - unfold cancelled.
    destruct (EmcyTelemetry.flushTimer (self w)); now repeat split.
Qed.

Lemma run_listeners config clock uuids network calls :
  listeners (host (run calls (start config clock uuids network)))
  = ["SIGTERM"; "SIGINT"; "beforeExit"]%string.
Proof.
  apply (run_invariant
           (fun w => listeners (host w) = ["SIGTERM"; "SIGINT"; "beforeExit"]%string));
    [|reflexivity].
  apply invoke_preserves.
  - intros w w' Hev Hw. destruct (evolves_host_static _ _ Hev) as (_ & _ & _ & Hl).
    congruence.
  - intros name version w Hw. exact Hw.
Qed.

(** ** Collector: the timer and the process events, further *)

(** X12: while the collector holds its interval, the elapsing of that
    interval is a flush, no more and no less; the elapsing of any other
    handle changes nothing. *)
Theorem interval_elapsed_flushes (config : EmcyConfig.t) (clock : nat -> Z)
    (uuids : nat -> string) (network : nat -> FetchResult) (calls : list Call)
    (handle : nat) :
  let w := run calls (start config clock uuids network) in
  EmcyTelemetry.flushTimer (self w) = Some handle ->
  exec (interval_elapsed handle) w = exec flush w /\
  fst (interval_elapsed handle w) = Normal tt /\
  forall other, other <> handle -> exec (interval_elapsed other) w = w.
Proof.
  intros w Htimer.
  pose proof (run_timer_owned config clock uuids network calls) as Hown.
  fold w in Hown. unfold timer_owned in Hown. rewrite Htimer in Hown.
  split; [|split].
  - rewrite interval_elapsed_exec, Hown. cbn [existsb].
    now rewrite Nat.eqb_refl.
  - unfold interval_elapsed, bind, lift, gets, when.
    destruct w as [o h]. cbn [host self] in *. rewrite Hown.
    cbn [existsb]. rewrite Nat.eqb_refl. cbn [orb].
    unfold flush_callback, catch_console_error, detach.
    now destruct (try_catch flush _ _).
  - intros other Hother.
    rewrite interval_elapsed_exec, Hown. cbn [existsb].
    apply Nat.eqb_neq in Hother. now rewrite Hother.
Qed.

Lemma shutdown_event_listeners event :
  existsb (String.eqb event) ["SIGTERM"; "SIGINT"; "beforeExit"]%string
  = is_shutdown_event event.
Proof.
  unfold is_shutdown_event. cbn [existsb].
  destruct (event =? "SIGTERM")%string, (event =? "SIGINT")%string,
           (event =? "beforeExit")%string; reflexivity.
Qed.

(** X13: in every run of a collector the process events [beforeExit],
    [SIGINT] and [SIGTERM], and no others, run [shutdown]; the listener
    settles normally whatever the delivery does. *)
Theorem process_events_shut_down (config : EmcyConfig.t) (clock : nat -> Z)
    (uuids : nat -> string) (network : nat -> FetchResult) (calls : list Call)
    (event : string) :
  let w := run calls (start config clock uuids network) in
  exec (process_emit event) w
  = (if is_shutdown_event event then exec shutdown w else w) /\
  fst (process_emit event w) = Normal tt.
Proof.
  intros w. split.
  - rewrite process_emit_exec. unfold w.
    now rewrite run_listeners, shutdown_event_listeners.
  - unfold process_emit, bind, lift, gets, when.
    destruct w as [o h]. cbn [host self fst snd].
    destruct (existsb _ _); [|reflexivity].
    unfold shutdown_listener, catch_console_error, detach.
    now destruct (try_catch shutdown _ _).
Qed.

(** X14: [shutdown] is idempotent: a second [shutdown] clears no timer,
    reads no clock, sends nothing and leaves the world as the first one
    left it. *)
Theorem shutdown_idempotent (w : World) :
  exec shutdown (exec shutdown w) = exec shutdown w /\
  EmcyTelemetry.flushTimer (self (exec shutdown w)) = None /\
  EmcyTelemetry.queue (self (exec shutdown w)) = [].
Proof.
  assert (Htimer : EmcyTelemetry.flushTimer (self (exec shutdown w)) = None).
  { unfold exec. rewrite shutdown_spec.
    change (snd (flush (cancelled w))) with (exec flush (cancelled w)).
    rewrite flush_self.
    cbn [EmcyTelemetry.set_queue EmcyTelemetry.flushTimer].
    unfold cancelled.
    destruct (EmcyTelemetry.flushTimer (self w)) eqn:Ht; [reflexivity|exact Ht]. }
  assert (Hqueue : EmcyTelemetry.queue (self (exec shutdown w)) = []).
  { unfold exec. rewrite shutdown_spec. apply flush_queue_empty. }
  split; [|now split].
  unfold exec at 1. rewrite shutdown_spec.
  unfold cancelled. rewrite Htimer, flush_spec, Hqueue. reflexivity.
Qed.

Lemma evolves_timer_history ms w w' :
  evolves w w' -> timer_history ms w -> timer_history ms w'.
Proof.
  unfold timer_history.
  induction 1 as [w|w1 w2 w3 _ IH1 _ IH2|w|w|invocation w|w Hq|w]; intros Hw.
  - exact Hw.
  - apply IH2, IH1, Hw.
  - exact Hw.
  - exact Hw.
  - unfold pushed. cbn [self host EmcyTelemetry.set_queue EmcyTelemetry.flushTimer].
    destruct (EmcyTelemetry.debug (self w)); [|exact Hw].
    cbn [host_after effects]. rewrite timer_effects_app.
    cbn [timer_effects logged_line]. now rewrite app_nil_r.
  - destruct (flushed_host w) as (n & es & Hh & Hes).
    rewrite flushed_self, Hh.
    cbn [EmcyTelemetry.set_queue EmcyTelemetry.flushTimer host_after effects
         clock_read].
    rewrite timer_effects_app. cbn [timer_effects].
    rewrite (transport_effects_no_timer _ _ _ Hes), app_nil_r. exact Hw.
  - unfold cancelled.
    destruct (EmcyTelemetry.flushTimer (self w)) as [handle|] eqn:Ht.
    + cbn [self host EmcyTelemetry.set_flushTimer EmcyTelemetry.flushTimer
           cleared effects].
      destruct Hw as [-> Hw]. rewrite timer_effects_app, Hw. reflexivity.
    + now rewrite Ht.
Qed.

(** X15: a collector creates one interval timer in its life, in the
    constructor, with its flush interval as period, and unrefs it at
    once; [clearInterval] is called at most once, and exactly when the
    collector holds the timer no more.  No call creates another timer or
    clears twice. *)
Theorem one_timer_per_collector (config : EmcyConfig.t) (clock : nat -> Z)
    (uuids : nat -> string) (network : nat -> FetchResult) (calls : list Call) :
  let w := run calls (start config clock uuids network) in
  let ms := or_number (EmcyConfig.flushInterval config) DEFAULT_FLUSH_INTERVAL in
  timer_effects (effects (host w)) =
  SetInterval 0 ms :: Unref 0 ::
  match EmcyTelemetry.flushTimer (self w) with
  | Some _ => []
  | None => [ClearInterval 0]
  end.
Proof.
  intros w ms.
  assert (H : timer_history ms w).
  { apply run_invariant; [|now split].
    apply invoke_preserves.
    - apply evolves_timer_history.
    - intros name version w1 Hw1. exact Hw1. }
  unfold timer_history in H.
  destruct (EmcyTelemetry.flushTimer (self w)); [now destruct H | exact H].
Qed.

(** ** Collector: where the requests go *)

Lemma evolves_requests_addressed config w w' :
  evolves w w' -> requests_addressed config w -> requests_addressed config w'.
Proof.
  unfold requests_addressed.
  induction 1 as [w|w1 w2 w3 _ IH1 _ IH2|w|w|invocation w|w Hq|w]; intros Hw.
  - exact Hw.
  - apply IH2, IH1, Hw.
  - exact Hw.
  - exact Hw.
  - unfold pushed. cbn [self host EmcyTelemetry.set_queue EmcyTelemetry.apiKey
      EmcyTelemetry.mcpServerId EmcyTelemetry.transport].
    destruct (EmcyTelemetry.debug (self w)); [|exact Hw].
    cbn [host_after effects]. rewrite requests_app.
    cbn [requests logged_line]. now rewrite app_nil_r.
  - destruct Hw as (Hk & Hm & He & Hr).
    destruct (flushed_host w) as (n & es & Hh & Hes).
    rewrite flushed_self, Hh.
    cbn [EmcyTelemetry.set_queue EmcyTelemetry.apiKey EmcyTelemetry.mcpServerId
         EmcyTelemetry.transport host_after effects clock_read].
    repeat split; try assumption.
    rewrite requests_app. cbn [requests].
    apply Forall_app. split; [exact Hr|].
    apply transport_effects_requests in Hes.
    eapply Forall_impl; [|exact Hes].
    intros q ->. unfold addressed.
    cbn [flush_batch TelemetryBatch.apiKey TelemetryBatch.mcpServerId].
    rewrite He, Hk, Hm. now repeat split.
  - unfold cancelled.
    destruct (EmcyTelemetry.flushTimer (self w)) as [handle|]; [|exact Hw].
    cbn [self host EmcyTelemetry.set_flushTimer EmcyTelemetry.apiKey
         EmcyTelemetry.mcpServerId EmcyTelemetry.transport cleared effects].
    rewrite requests_app. cbn [requests]. now rewrite app_nil_r.
Qed.

(** X3: every request a collector ever makes goes to the configured
    endpoint, or to the default endpoint when none or an empty one is
    configured, carries the configured API key as bearer token, and has
    as body a batch stamped with that API key and the configured server
    id. *)
Theorem requests_follow_config (config : EmcyConfig.t) (clock : nat -> Z)
    (uuids : nat -> string) (network : nat -> FetchResult) (calls : list Call) :
  Forall (addressed config)
         (requests (effects (host (run calls (start config clock uuids network))))).
Proof.
  assert (H : requests_addressed config (run calls (start config clock uuids network))).
  { apply run_invariant.
    - apply invoke_preserves.
      + apply evolves_requests_addressed.
      + intros name version w Hw. exact Hw.
    - repeat split. constructor. }
  apply H.
Qed.

(** ** Collector: small batch sizes and silence *)

Lemma logs_each_alone records : forall w,
  EmcyTelemetry.queue (self w) = [] ->
  EmcyTelemetry.batchSize (self w) <= 1 ->
  let w' := run (map CallLog records) w in
  EmcyTelemetry.queue (self w') = [] /\
  EmcyTelemetry.batchSize (self w') = EmcyTelemetry.batchSize (self w) /\
  map TelemetryBatch.invocations (sent (effects (host w'))) =
  map TelemetryBatch.invocations (sent (effects (host w)))
  ++ map (fun r => [r]) records.
Proof.
  induction records as [|x records IH]; intros w Hq Hb; cbn zeta.
  - cbn [map run fold_left]. now rewrite app_nil_r.
  - change (run (map CallLog (x :: records)) w)
      with (run (map CallLog records) (exec (log x) w)).
    assert (Hlog : exec (log x) w = flushed (pushed x w)).
    { unfold exec. rewrite log_spec. cbn [snd].
      rewrite Hq. cbn [app List.length].
      destruct (Z.leb_spec (EmcyTelemetry.batchSize (self w)) (Z.of_nat 1)); [|lia].
      reflexivity. }
    destruct (IH (exec (log x) w)) as (Hq' & Hb' & Hs').
    { rewrite Hlog. now rewrite flushed_self. }
    { rewrite Hlog, flushed_self. exact Hb. }
    split; [exact Hq'|]. split.
    + rewrite Hb', Hlog, flushed_self. reflexivity.
    + rewrite Hs', Hlog, flushed_sent, pushed_sent, map_app.
      cbn [map flush_batch TelemetryBatch.invocations pushed self
           EmcyTelemetry.set_queue EmcyTelemetry.queue].
      rewrite Hq, <- app_assoc. reflexivity.
Qed.

(** X11: a batch size of 1, and any negative batch size, is taken as
    configured, and then every logged record is handed over at once, in
    a batch of its own: the queue is empty after each [log]. *)
Theorem small_batch_size_sends_each_record (config : EmcyConfig.t)
    (clock : nat -> Z) (uuids : nat -> string) (network : nat -> FetchResult)
    (n : Z) (records : list ToolInvocation.t) :
  EmcyConfig.batchSize config = Some n ->
  n <> 0 ->
  n <= 1 ->
  let w := run (map CallLog records) (start config clock uuids network) in
  EmcyTelemetry.batchSize (self w) = n /\
  EmcyTelemetry.queue (self w) = [] /\
  map TelemetryBatch.invocations (sent (effects (host w))) =
  map (fun r => [r]) records.
Proof.
  intros Hcfg Hnz Hle w.
  assert (Hb : EmcyTelemetry.batchSize (self (start config clock uuids network)) = n).
  { unfold start. rewrite new_EmcyTelemetry_self.
    cbn [EmcyTelemetry.set_flushTimer EmcyTelemetry.batchSize constructor_fields].
    rewrite Hcfg. unfold or_number.
    destruct (Z.eqb_spec n 0); [contradiction | reflexivity]. }
  destruct (logs_each_alone records (start config clock uuids network))
    as (Hq' & Hb' & Hs'); [reflexivity | lia |].
  fold w in Hq', Hb', Hs'.
  split; [congruence|]. split; [exact Hq'|]. exact Hs'.
Qed.

Lemma evolves_quiet w w' : evolves w w' -> quiet w -> quiet w'.
Proof.
  unfold quiet.
  induction 1 as [w|w1 w2 w3 _ IH1 _ IH2|w|w|invocation w|w Hq|w]; intros Hw.
  - exact Hw.
  - apply IH2, IH1, Hw.
  - exact Hw.
  - exact Hw.
  - destruct Hw as (Hd & Ht & Hn & Hc). unfold pushed.
    cbn [self host EmcyTelemetry.set_queue EmcyTelemetry.debug
         EmcyTelemetry.transport].
    rewrite Hd. now repeat split.
  - destruct Hw as (Hd & Ht & Hn & Hc).
    rewrite flushed_self.
    cbn [EmcyTelemetry.set_queue EmcyTelemetry.debug EmcyTelemetry.transport].
    unfold flushed, transcript.
    rewrite (verdict_success _ (Hn _)).
    unfold sent_line. rewrite Ht.
    cbn [host host_after network effects clock_read].
    repeat split; try assumption.
    rewrite consoles_app. cbn [consoles request]. now rewrite Hc.
  - destruct Hw as (Hd & Ht & Hn & Hc). unfold cancelled.
    destruct (EmcyTelemetry.flushTimer (self w)) as [handle|]; [|now repeat split].
    cbn [self host EmcyTelemetry.set_flushTimer EmcyTelemetry.debug
         EmcyTelemetry.transport cleared network effects].
    repeat split; try assumption.
    rewrite consoles_app. cbn [consoles]. now rewrite Hc.
Qed.

(** X17: a collector configured without [debug] writes nothing to the
    console as long as every request is answered with a success: the
    debug flag of the collector is also the debug flag of its
    transport. *)
Theorem silent_without_debug (config : EmcyConfig.t)
    (clock : nat -> Z) (uuids : nat -> string) (network : nat -> FetchResult)
    (calls : list Call) :
  EmcyConfig.debug config <> Some true ->
  (forall i, indicates_success (network i) = true) ->
  consoles (effects (host (run calls (start config clock uuids network)))) = [].
Proof.
  intros Hdebug Hnet.
  assert (Hor : or_bool (EmcyConfig.debug config) false = false).
  { destruct (EmcyConfig.debug config) as [[|]|]; [contradiction| |]; reflexivity. }
  assert (H : quiet (run calls (start config clock uuids network))).
  { apply run_invariant.
    - apply invoke_preserves.
      + apply evolves_quiet.
      + intros name version w Hw. exact Hw.
    - unfold quiet, start. rewrite new_EmcyTelemetry_self.
      cbn [EmcyTelemetry.set_flushTimer EmcyTelemetry.debug EmcyTelemetry.transport
           constructor_fields new_TelemetryTransport TelemetryTransport.debug].
      rewrite Hor. repeat split. exact Hnet. }
  apply H.
Qed.

(** ** Collector: batches and their requests *)

Lemma combine_snoc {A B} (l : list A) (l' : list B) a b :
  List.length l = List.length l' ->
  combine (l ++ [a]) (l' ++ [b]) = combine l l' ++ [(a, b)].
Proof.
  revert l'. induction l as [|x l IH]; intros [|y l'] Hlen;
    try discriminate; [reflexivity|].
  cbn. f_equal. apply IH. now injection Hlen.
Qed.

Lemma flushed_fetched_bounded w :
  exists n,
    (1 <= n <= 3)%nat /\
    fetched (effects (host (flushed w))) =
    fetched (effects (host w)) ++ repeat (flush_batch w) n.
Proof.
  unfold flushed.
  pose proof (transcript_shape (EmcyTelemetry.transport (self w)) (flush_batch w)
                (fun k => network (host w) (fetchCalls (host w) + k)%nat)) as Hs.
  destruct (transcript _ _ _) as [[delivered n] es].
  destruct Hs as (Hn & Hf & _).
  exists n. split; [exact Hn|]. cbn [host host_after effects clock_read].
  rewrite fetched_app. cbn [fetched]. now rewrite Hf.
Qed.

Lemma evolves_requested_at_most_thrice w w' :
  evolves w w' ->
  (exists counts, requested_at_most_thrice w counts) ->
  exists counts, requested_at_most_thrice w' counts.
Proof.
  unfold requested_at_most_thrice.
  induction 1 as [w|w1 w2 w3 _ IH1 _ IH2|w|w|invocation w|w Hq|w]; intros Hw.
  - exact Hw.
  - apply IH2, IH1, Hw.
  - exact Hw.
  - exact Hw.
  - now rewrite pushed_sent, pushed_fetched.
  - destruct Hw as (counts & Hlen & Hall & Hf).
    destruct (flushed_fetched_bounded w) as (n & Hn & Hfn).
    exists (counts ++ [n]).
    rewrite flushed_sent, Hfn, !length_app. cbn [List.length].
    split; [lia|]. split.
    + apply Forall_app. split; [exact Hall|]. constructor; [lia | constructor].
    + rewrite combine_snoc by (symmetry; exact Hlen).
      rewrite flat_map_app. cbn [flat_map fst snd]. rewrite app_nil_r.
      now apply Permutation_app_tail.
  - destruct (cancelled_observed w) as [-> ->]. exact Hw.
Qed.

(** X18: the bound of the transport holds batch by batch over the life
    of a collector: every batch handed over is requested at most three
    times, and every request is for a batch that was handed over.  The
    requests are counted as a collection, so the statement does not
    depend on the order in which deliveries under way make them. *)
Theorem each_batch_requested_at_most_thrice (config : EmcyConfig.t)
    (clock : nat -> Z) (uuids : nat -> string) (network : nat -> FetchResult)
    (calls : list Call) :
  exists counts,
    requested_at_most_thrice (run calls (start config clock uuids network)) counts.
Proof.
  apply (run_invariant (fun w => exists counts, requested_at_most_thrice w counts)).
  - apply (invoke_preserves
             (fun w => exists counts, requested_at_most_thrice w counts)).
    + apply evolves_requested_at_most_thrice.
    + intros name version w Hw. exact Hw.
  - exists []. split; [reflexivity|]. split; [constructor|].
    apply Permutation_refl.
Qed.

(** X19: [shutdown] hands over every record there is when it runs: after
    it the queue is empty and the batches handed to the transport hold,
    in order, all the records that were handed over or queued before.
    So after any calls followed by [shutdown], they hold every record
    logged until then, in the order of logging.  The record of a trace
    that settles after the [shutdown] is logged after it and is no part
    of this. *)
Theorem shutdown_hands_over_everything :
  (forall w,
     flat_map TelemetryBatch.invocations (sent (effects (host (exec shutdown w))))
     = all_records w /\
     EmcyTelemetry.queue (self (exec shutdown w)) = []) /\
  (forall calls w,
     exists added,
       flat_map TelemetryBatch.invocations
         (sent (effects (host (run (calls ++ [CallShutdown]) w))))
       = all_records w ++ added /\
       Forall2 record_of_call (filter is_recording calls) added).
Proof.
  assert (Hshut : forall w,
            flat_map TelemetryBatch.invocations
              (sent (effects (host (exec shutdown w)))) = all_records w /\
            EmcyTelemetry.queue (self (exec shutdown w)) = []).
  { intros w.
    assert (Hq : EmcyTelemetry.queue (self (exec shutdown w)) = []).
    { unfold exec. rewrite shutdown_spec. apply flush_queue_empty. }
    split; [|exact Hq].
    rewrite <- (all_records_shutdown w). unfold all_records.
    now rewrite Hq, app_nil_r. }
  split; [exact Hshut|].
  intros calls w.
  destruct (run_records calls w) as (added & Heq & Hall).
  exists added. split; [|exact Hall].
  rewrite run_app.
  change (run [CallShutdown] (run calls w)) with (exec shutdown (run calls w)).
  destruct (Hshut (run calls w)) as [-> _]. exact Heq.
Qed.

(** ** Instances of the further properties *)

(** An endpoint that always answers 304. *)
Lemma send_retries_other_status_witness :
  send test_transport test_batch
       (test_host (mock_fetch [] (status_response 304 "Not Modified"))) =
  (Normal false,
   host_after (test_host (mock_fetch [] (status_response 304 "Not Modified"))) 3
     (retries test_transport test_batch 2 ++
      [request test_transport test_batch;
       failed_line (new_Error "HTTP 304: Not Modified")])).
Proof.
  apply (send_retries_other_status test_transport test_batch
           (test_host (mock_fetch [] (status_response 304 "Not Modified")))
           304 "Not Modified"%string).
  - right. left. lia.
  - intros i. destruct i; reflexivity.
Defined.

(** A connection that is reset three times, the reason thrown as a
    string. *)
Lemma send_failure_report_witness :
  exists es,
    send test_transport test_batch
         (test_host (mock_fetch [] (Rejected (VString "ECONNRESET")))) =
    (Normal false,
     host_after (test_host (mock_fetch [] (Rejected (VString "ECONNRESET")))) 3 es) /\
    consoles es =
    [[VString "[emcy] Failed to send telemetry after 3 attempts:";
      VString "ECONNRESET"]].
Proof.
  apply (send_failure_report test_transport test_batch
           (test_host (mock_fetch [] (Rejected (VString "ECONNRESET"))))).
  intros j Hj. destruct j as [|[|[|j]]]; split; reflexivity.
Defined.

(** The clock of the fixtures never goes back. *)
Lemma trace_timing_witness :
  exists invocation,
    all_records
      (exec (trace "x" (settled (Normal (VNumber 42))) None)
            (start (test_config None None) test_clock test_uuids
                   (mock_fetch [] ok_response)))
    = [invocation] /\
    0 <= ToolInvocation.duration invocation.
Proof.
  destruct (trace_timing "x" (Normal (VNumber 42)) None
              (start (test_config None None) test_clock test_uuids
                     (mock_fetch [] ok_response)))
    as (invocation & Hrec & _ & _ & _ & Hmono).
  exists invocation. split; [exact Hrec|].
  apply Hmono. intros a b Hab.
  change (test_clock a <= test_clock b).
  unfold test_clock. lia.
Defined.

(** Batch size -5: two records, two batches. *)
Lemma small_batch_size_sends_each_record_witness :
  let r1 := test_invocation "inv-1" "tool1" 100 in
  let r2 := test_invocation "inv-2" "tool2" 200 in
  let w := run (map CallLog [r1; r2])
               (start (test_config None (Some (-5))) test_clock test_uuids
                      (mock_fetch [] ok_response)) in
  EmcyTelemetry.batchSize (self w) = -5 /\
  EmcyTelemetry.queue (self w) = [] /\
  map TelemetryBatch.invocations (sent (effects (host w))) = [[r1]; [r2]].
Proof.
  intros r1 r2.
  apply (small_batch_size_sends_each_record (test_config None (Some (-5)))
           test_clock test_uuids (mock_fetch [] ok_response) (-5) [r1; r2]).
  - reflexivity.
  - lia.
  - lia.
Defined.

(** One record queued, then the interval of the collector elapses. *)
Lemma interval_elapsed_flushes_witness :
  let w := run [CallLog (test_invocation "inv-1" "tool1" 100)]
               (start (test_config None None) test_clock test_uuids
                      (mock_fetch [] ok_response)) in
  exec (interval_elapsed 0) w = exec flush w /\
  fst (interval_elapsed 0 w) = Normal tt /\
  forall other, other <> 0%nat -> exec (interval_elapsed other) w = w.
Proof.
  apply (interval_elapsed_flushes (test_config None None) test_clock test_uuids
           (mock_fetch [] ok_response)
           [CallLog (test_invocation "inv-1" "tool1" 100)] 0%nat).
  reflexivity.
Defined.

(** A result with a status and a name, and no data. *)
Lemma trace_status_without_data_witness :
  exists invocation,
    all_records
      (exec (trace "get_user"
               (settled (Normal (VObject [("status", VString "active");
                                          ("name", VString "Bob")]%string)))
               None)
            (start (test_config None None) test_clock test_uuids
                   (mock_fetch [] ok_response)))
    = [] ++ [invocation] /\
    ToolInvocation.success invocation = true /\
    ToolInvocation.output invocation
    = Some (Output.mk (Some (VString "active")) VUndefined).
Proof.
  apply (trace_status_without_data "get_user" None
           (start (test_config None None) test_clock test_uuids
                  (mock_fetch [] ok_response))
           [("status", VString "active"); ("name", VString "Bob")]%string
           (VString "active")); reflexivity.
Defined.

(** No debug flag, an endpoint that always answers 200. *)
Lemma silent_without_debug_witness :
  consoles (effects (host
    (run [CallLog (test_invocation "inv-1" "tool1" 100); CallFlush; CallShutdown]
         (start (test_config None None) test_clock test_uuids
                (mock_fetch [] ok_response))))) = [].
Proof.
  apply (silent_without_debug (test_config None None) test_clock test_uuids
           (mock_fetch [] ok_response)).
  - discriminate.
  - intros i. destruct i; reflexivity.
Defined.
